(** * The discriminator of [src/models/Discriminator.py]

    A shallow embedding of the class [Discriminator]: its constructor, its
    [forward] method with the chain of shape assertions, and
    [display_gradients].

    The class is written against PyTorch.  The part of PyTorch that the file
    calls ([nn.Conv2d], [nn.BatchNorm2d], [nn.LeakyReLU], [nn.AvgPool2d],
    [nn.Flatten], [nn.Linear], [nn.Sigmoid], [nn.Softmax], [nn.Sequential],
    [Tensor.backward]) is modelled in the module [Torch] after the library's
    documented behaviour.  Dimensions are Python integers ([Z]).  Scalars are
    real numbers: rounding, overflow and NaN of 32-bit floating point are
    not modelled, so every statement about values is a statement about the
    exact arithmetic that the floating-point code approximates.  [assert]
    statements are executed (the interpreter does not run with [-O]).
    Allocating a tensor fails when its size is negative, overflows 64 bits
    or exceeds what the allocator provides, an amount the constructor takes
    as a parameter. *)

From Stdlib Require Import ZArith List String Bool Reals Lra Lia.
From Stdlib Require Import DecimalString.
Import ListNotations.

Open Scope string_scope.
Open Scope list_scope.
Open Scope Z_scope.

(** ** Python values shared by the two modules *)

Inductive Exception :=
| AssertionError (msg : string)
| RuntimeError (msg : string)
| ValueError (msg : string)
| IndexError (msg : string).

(** A computation that may raise. *)
Definition Raises (A : Type) : Type := (Exception + A)%type.

Definition bindR {A B} (c : Raises A) (k : A -> Raises B) : Raises B :=
  match c with
  | inl e => inl e
  | inr a => k a
  end.

Declare Scope raises_scope.
Delimit Scope raises_scope with raises.
Notation "x <- c ;; k" := (bindR c (fun x => k))
  (at level 61, c at next level, right associativity) : raises_scope.

Module Torch.

(** *** Sizes *)

Definition Size := list Z.

Fixpoint Size_eqb (a b : Size) : bool :=
  match a, b with
  | [], [] => true
  | x :: a', y :: b' => (x =? y) && Size_eqb a' b'
  | _, _ => false
  end.

Definition numel (s : Size) : Z := fold_right Z.mul 1 s.

(** [str(x.shape)], as the f-strings of the assertion messages print it. *)
Definition Z_repr (z : Z) : string := NilZero.string_of_int (Z.to_int z).

Fixpoint commas (l : list string) : string :=
  match l with
  | [] => ""
  | [s] => s
  | s :: rest => (s ++ ", " ++ commas rest)%string
  end.

Definition list_repr (s : Size) : string :=
  ("[" ++ commas (map Z_repr s) ++ "]")%string.
Definition Size_repr (s : Size) : string :=
  ("torch.Size(" ++ list_repr s ++ ")")%string.

(** *** Tensors

    A tensor is its shape, its entries by multi-index, and the names of the
    leaf parameters of the autograd graph it was computed from (what
    [grad_fn] reaches). *)

Record Tensor := mkTensor {
  shape : Size;
  item : list Z -> R;
  graph : list string
}.

(** [x.shape[1:]] *)
Definition shape_from1 (x : Tensor) : Size := tl (shape x).

Record Param := mkParam {
  name : string;
  data : Tensor;
  grad : option Tensor
}.

(** Sum of [f 0 .. f (n-1)]. *)
Fixpoint Rsum_nat (n : nat) (f : Z -> R) : R :=
  match n with
  | O => 0%R
  | S k => (Rsum_nat k f + f (Z.of_nat k))%R
  end.

Definition Rsum (n : Z) (f : Z -> R) : R := Rsum_nat (Z.to_nat n) f.

(** The size in bytes of an element of the default dtype, float32. *)
Definition itemsize : Z := 4.

(** The first storage size that no longer fits a 64-bit integer, 2^63. *)
Definition int64_bound : Z := 9223372036854775808.

(** [torch.empty(shape)] refuses a negative dimension, a storage whose size
    in bytes overflows a 64-bit integer, and a storage larger than what the
    allocator can provide: [limit] stands for that amount, which depends on
    the machine. *)
Definition allocate (limit : Z) (s : Size) : Raises unit :=
  if negb (forallb (fun d => 0 <=? d) s) then
    inl (RuntimeError "Trying to create tensor with negative dimension")
  else if int64_bound <=? itemsize * numel s then
    inl (RuntimeError "Storage size calculation overflowed")
  else if limit <? itemsize * numel s then
    inl (RuntimeError "DefaultCPUAllocator: can't allocate memory")
  else inr tt.

(** A tensor that is allocated and then filled ([torch.zeros], [torch.ones]). *)
Definition Buffer_new (limit : Z) (s : Size) (fill : R) : Raises Tensor :=
  (u <- allocate limit s;;
   inr {| shape := s; item := fun _ => fill; graph := [] |})%raises.

(** A fresh parameter: its storage is allocated, and its values are drawn
    by the layer's initialiser, here [init]. *)
Definition Param_new (limit : Z) (nm : string) (s : Size) (init : list Z -> R)
  : Raises Param :=
  (u <- allocate limit s;;
   inr {| name := nm;
          data := {| shape := s; item := init; graph := [nm] |};
          grad := None |})%raises.

(** *** nn.Conv2d (dilation 1, groups 1, zero padding)

    Batched (4-D) input only.  PyTorch also takes an unbatched 3-D input;
    [forward] asserts a 4-D shape before its first convolution, so that form
    is never reached and is not modelled. *)

Record Conv2d := mkConv2d {
  in_channels : Z;
  out_channels : Z;
  kernel_size : Z * Z;
  stride : Z * Z;
  padding : Z * Z;
  weight : Param;
  bias : Param
}.

Definition conv_out (size k s p : Z) : Z := (size + 2 * p - (k - 1) - 1) / s + 1.

Definition padded (x : Tensor) (H W : Z) (n c h w : Z) : R :=
  if (0 <=? h) && (h <? H) && (0 <=? w) && (w <? W)
  then item x [n; c; h; w] else 0%R.

Definition Conv2d_item (m : Conv2d) (x : Tensor) (H W : Z) (idx : list Z) : R :=
  match idx with
  | [n; co; i; j] =>
      (item (data (bias m)) [co] +
       Rsum (in_channels m) (fun ci =>
         Rsum (fst (kernel_size m)) (fun ki =>
           Rsum (snd (kernel_size m)) (fun kj =>
             item (data (weight m)) [co; ci; ki; kj] *
             padded x H W n ci
               (i * fst (stride m) - fst (padding m) + ki)%Z
               (j * snd (stride m) - snd (padding m) + kj)%Z))))%R
  | _ => 0%R
  end.

Definition Conv2d_forward (m : Conv2d) (x : Tensor) : Raises Tensor :=
  match shape x with
  | [N; C; H; W] =>
      if negb (C =? in_channels m) then
        inl (RuntimeError "expected input to have in_channels channels")
      else if (H + 2 * fst (padding m) <? fst (kernel_size m))
              || (W + 2 * snd (padding m) <? snd (kernel_size m)) then
        inl (RuntimeError "Kernel size can't be greater than actual input size")
      else
        inr {| shape := [N; out_channels m;
                         conv_out H (fst (kernel_size m)) (fst (stride m)) (fst (padding m));
                         conv_out W (snd (kernel_size m)) (snd (stride m)) (snd (padding m))];
               item := Conv2d_item m x H W;
               graph := graph x ++ [name (weight m); name (bias m)] |}
  | _ => inl (RuntimeError "Expected 4D (batched) input to conv2d")
  end.

Definition Conv2d_new (limit : Z) (prefix : string) (cin cout : Z) (k s p : Z * Z)
  (init : string -> list Z -> R) : Raises Conv2d :=
  (w <- Param_new limit (prefix ++ ".weight")%string [cout; cin; fst k; snd k]
              (init (prefix ++ ".weight")%string);;
   b <- Param_new limit (prefix ++ ".bias")%string [cout]
          (init (prefix ++ ".bias")%string);;
   inr {| in_channels := cin; out_channels := cout; kernel_size := k;
          stride := s; padding := p; weight := w; bias := b |})%raises.

(** *** nn.BatchNorm2d (affine, track_running_stats, momentum 0.1, eps 1e-5) *)

Record BatchNorm2d := mkBatchNorm2d {
  num_features : Z;
  eps : R;
  momentum : R;
  bn_weight : Param;
  bn_bias : Param;
  running_mean : Tensor;
  running_var : Tensor;
  num_batches_tracked : Z;
  training : bool
}.

(** Sum of [f n h w] over one channel of an [N x _ x H x W] batch. *)
Definition chan_sum (N H W : Z) (f : Z -> Z -> Z -> R) : R :=
  Rsum N (fun n => Rsum H (fun h => Rsum W (fun w => f n h w))).

Definition batch_mean (x : Tensor) (N H W c : Z) : R :=
  (chan_sum N H W (fun n h w => item x [n; c; h; w]) / IZR (N * H * W))%R.

Definition sq_dev (x : Tensor) (N H W c : Z) : R :=
  chan_sum N H W (fun n h w =>
    (item x [n; c; h; w] - batch_mean x N H W c) *
    (item x [n; c; h; w] - batch_mean x N H W c))%R.

Definition batch_var (x : Tensor) (N H W c : Z) : R :=
  (sq_dev x N H W c / IZR (N * H * W))%R.

Definition batch_var_unbiased (x : Tensor) (N H W c : Z) : R :=
  (sq_dev x N H W c / IZR (N * H * W - 1))%R.

Definition normalized (m : BatchNorm2d) (x : Tensor) (mean var : Z -> R)
  (idx : list Z) : R :=
  match idx with
  | [n; c; h; w] =>
      ((item x idx - mean c) / sqrt (var c + eps m)
       * item (data (bn_weight m)) [c] + item (data (bn_bias m)) [c])%R
  | _ => 0%R
  end.

Definition moving (mom : R) (old : Tensor) (new : Z -> R) : Tensor :=
  {| shape := shape old;
     item := fun idx =>
       match idx with
       | [c] => ((1 - mom) * item old [c] + mom * new c)%R
       | _ => 0%R
       end;
     graph := [] |}.

Definition BatchNorm2d_forward (m : BatchNorm2d) (x : Tensor)
  : Raises Tensor * BatchNorm2d :=
  match shape x with
  | [N; C; H; W] =>
      if training m then
        (* the counter is bumped before the input is looked at *)
        let m1 :=
          {| num_features := num_features m; eps := eps m; momentum := momentum m;
             bn_weight := bn_weight m; bn_bias := bn_bias m;
             running_mean := running_mean m; running_var := running_var m;
             num_batches_tracked := num_batches_tracked m + 1;
             training := true |} in
        if N * H * W =? 1 then
          (inl (ValueError "Expected more than 1 value per channel when training"), m1)
        else if negb (C =? num_features m) then
          (inl (RuntimeError "running_mean should contain C elements"), m1)
        else
          (inr {| shape := shape x;
                  item := normalized m x (batch_mean x N H W) (batch_var x N H W);
                  graph := graph x ++ [name (bn_weight m); name (bn_bias m)] |},
           {| num_features := num_features m; eps := eps m; momentum := momentum m;
              bn_weight := bn_weight m; bn_bias := bn_bias m;
              running_mean := moving (momentum m) (running_mean m) (batch_mean x N H W);
              running_var :=
                moving (momentum m) (running_var m) (batch_var_unbiased x N H W);
              num_batches_tracked := num_batches_tracked m + 1;
              training := true |})
      else if negb (C =? num_features m) then
        (inl (RuntimeError "running_mean should contain C elements"), m)
      else
        (inr {| shape := shape x;
                item := normalized m x (fun c => item (running_mean m) [c])
                          (fun c => item (running_var m) [c]);
                graph := graph x ++ [name (bn_weight m); name (bn_bias m)] |},
         m)
  | _ => (inl (ValueError "expected 4D input"), m)
  end.

Definition BatchNorm2d_new (limit : Z) (prefix : string) (features : Z)
  : Raises BatchNorm2d :=
  (w <- Param_new limit (prefix ++ ".weight")%string [features] (fun _ => 1%R);;
   b <- Param_new limit (prefix ++ ".bias")%string [features] (fun _ => 0%R);;
   rm <- Buffer_new limit [features] 0;;
   rv <- Buffer_new limit [features] 1;;
   inr {| num_features := features; eps := (1 / 100000)%R; momentum := (1 / 10)%R;
          bn_weight := w; bn_bias := b;
          running_mean := rm;
          running_var := rv;
          num_batches_tracked := 0;
          training := true |})%raises.

(** *** nn.LeakyReLU *)

Definition LeakyReLU_forward (negative_slope : R) (x : Tensor) : Tensor :=
  {| shape := shape x;
     item := fun idx =>
       (Rmax 0 (item x idx) + negative_slope * Rmin 0 (item x idx))%R;
     graph := graph x |}.

(** *** nn.AvgPool2d (stride = kernel size, no padding, floor mode)

    Batched (4-D) input only, as for the convolution. *)

Definition pool_out (size k : Z) : Z := (size - k) / k + 1.

Definition AvgPool2d_item (k : Z) (x : Tensor) (idx : list Z) : R :=
  match idx with
  | [n; c; i; j] =>
      (Rsum k (fun a => Rsum k (fun b => item x [n; c; (k * i + a)%Z; (k * j + b)%Z]))
       / IZR (k * k))%R
  | _ => 0%R
  end.

Definition AvgPool2d_forward (k : Z) (x : Tensor) : Raises Tensor :=
  match shape x with
  | [N; C; H; W] =>
      if (pool_out H k <=? 0) || (pool_out W k <=? 0) then
        inl (RuntimeError "Output size is too small")
      else
        inr {| shape := [N; C; pool_out H k; pool_out W k];
               item := AvgPool2d_item k x;
               graph := graph x |}
  | _ => inl (RuntimeError "non-empty 4D input tensor expected")
  end.

(** *** nn.Flatten (start_dim 1, end_dim -1), row-major *)

Fixpoint unravel (dims : Size) (k : Z) : list Z :=
  match dims with
  | [] => []
  | d :: ds => (k / numel ds) :: unravel ds (k mod numel ds)
  end.

Definition Flatten_forward (x : Tensor) : Raises Tensor :=
  match shape x with
  | N :: d :: ds =>
      inr {| shape := [N; numel (d :: ds)];
             item := fun idx =>
               match idx with
               | [n; k] => item x (n :: unravel (d :: ds) k)
               | _ => 0%R
               end;
             graph := graph x |}
  | _ => inl (IndexError "Dimension out of range")
  end.

(** *** nn.Linear *)

Record Linear := mkLinear {
  in_features : Z;
  out_features : Z;
  lin_weight : Param;
  lin_bias : Param
}.

Definition Linear_item (m : Linear) (x : Tensor) (idx : list Z) : R :=
  (item (data (lin_bias m)) [last idx 0%Z] +
   Rsum (in_features m) (fun k =>
     item (data (lin_weight m)) [last idx 0%Z; k] *
     item x (removelast idx ++ [k])))%R.

Definition Linear_forward (m : Linear) (x : Tensor) : Raises Tensor :=
  match rev (shape x) with
  | F :: _ =>
      if negb (F =? in_features m) then
        inl (RuntimeError "mat1 and mat2 shapes cannot be multiplied")
      else
        inr {| shape := removelast (shape x) ++ [out_features m];
               item := Linear_item m x;
               graph := graph x ++ [name (lin_weight m); name (lin_bias m)] |}
  | [] => inl (RuntimeError "both arguments to matmul need to be at least 1D")
  end.

Definition Linear_new (limit : Z) (prefix : string) (fin fout : Z)
  (init : string -> list Z -> R) : Raises Linear :=
  (w <- Param_new limit (prefix ++ ".weight")%string [fout; fin]
          (init (prefix ++ ".weight")%string);;
   b <- Param_new limit (prefix ++ ".bias")%string [fout]
          (init (prefix ++ ".bias")%string);;
   inr {| in_features := fin; out_features := fout;
          lin_weight := w; lin_bias := b |})%raises.

(** *** nn.Sigmoid and nn.Softmax *)

Definition sigmoid (v : R) : R := (1 / (1 + exp (- v)))%R.

Definition Sigmoid_forward (x : Tensor) : Tensor :=
  {| shape := shape x; item := fun idx => sigmoid (item x idx); graph := graph x |}.

Fixpoint replace_nth (n : nat) (v : Z) (l : list Z) : list Z :=
  match l, n with
  | [], _ => []
  | _ :: t, O => v :: t
  | h :: t, S n' => h :: replace_nth n' v t
  end.

(** The entry at [idx] divided by the sum of the exponentials of the entries
    that differ from it in coordinate [d] only. *)
Definition Softmax_item (d : nat) (x : Tensor) (idx : list Z) : R :=
  (exp (item x idx)
   / Rsum (nth d (shape x) 0%Z) (fun m => exp (item x (replace_nth d m idx))))%R.

Definition Softmax_forward (dim : Z) (x : Tensor) : Raises Tensor :=
  let rank := Z.of_nat (List.length (shape x)) in
  let d := if dim <? 0 then dim + rank else dim in
  if (0 <=? d) && (d <? rank) then
    inr {| shape := shape x;
           item := Softmax_item (Z.to_nat d) x;
           graph := graph x |}
  else inl (IndexError "Dimension out of range").

(** *** nn.Module and nn.Sequential *)

Inductive NNModule :=
| MConv2d (m : Conv2d)
| MBatchNorm2d (m : BatchNorm2d)
| MLeakyReLU (negative_slope : R)
| MAvgPool2d (kernel : Z)
| MFlatten
| MLinear (m : Linear)
| MSigmoid
| MSoftmax (dim : Z).

Definition class_name (m : NNModule) : string :=
  match m with
  | MConv2d _ => "Conv2d"
  | MBatchNorm2d _ => "BatchNorm2d"
  | MLeakyReLU _ => "LeakyReLU"
  | MAvgPool2d _ => "AvgPool2d"
  | MFlatten => "Flatten"
  | MLinear _ => "Linear"
  | MSigmoid => "Sigmoid"
  | MSoftmax _ => "Softmax"
  end.

(** Calling a module: its result, and the module as the call leaves it. *)
Definition NNModule_forward (m : NNModule) (x : Tensor) : Raises Tensor * NNModule :=
  match m with
  | MConv2d c => (Conv2d_forward c x, m)
  | MBatchNorm2d b =>
      let (r, b') := BatchNorm2d_forward b x in (r, MBatchNorm2d b')
  | MLeakyReLU s => (inr (LeakyReLU_forward s x), m)
  | MAvgPool2d k => (AvgPool2d_forward k x, m)
  | MFlatten => (Flatten_forward x, m)
  | MLinear l => (Linear_forward l x, m)
  | MSigmoid => (inr (Sigmoid_forward x), m)
  | MSoftmax d => (Softmax_forward d x, m)
  end.

(** [module.parameters()], in registration order. *)
Definition parameters (m : NNModule) : list Param :=
  match m with
  | MConv2d c => [weight c; bias c]
  | MBatchNorm2d b => [bn_weight b; bn_bias b]
  | MLinear l => [lin_weight l; lin_bias l]
  | _ => []
  end.

Definition Sequential := list NNModule.

(** The modules are called in order, each on the previous one's output; the
    third component lists the classes of the modules that were called. *)
Fixpoint Sequential_forward (ms : Sequential) (x : Tensor)
  : Raises Tensor * Sequential * list string :=
  match ms with
  | [] => (inr x, [], [])
  | m :: rest =>
      match NNModule_forward m x with
      | (inl e, m') => (inl e, m' :: rest, [class_name m])
      | (inr y, m') =>
          let '(r, rest', called) := Sequential_forward rest y in
          (r, m' :: rest', class_name m :: called)
      end
  end.

Definition Sequential_parameters (ms : Sequential) : list Param :=
  flat_map parameters ms.

(** *** Autograd: torch.sum, +, and Tensor.backward *)

Fixpoint sum_all (s : Size) (f : list Z -> R) : R :=
  match s with
  | [] => f []
  | d :: rest => Rsum d (fun i => sum_all rest (fun idx => f (i :: idx)))
  end.

Definition Tensor_sum (x : Tensor) : Tensor :=
  {| shape := []; item := fun _ => sum_all (shape x) (item x); graph := graph x |}.

(** Addition of two tensors of one shape (no broadcasting is needed here). *)
Definition Tensor_add (a b : Tensor) : Raises Tensor :=
  if Size_eqb (shape a) (shape b) then
    inr {| shape := shape a;
           item := fun idx => (item a idx + item b idx)%R;
           graph := graph a ++ graph b |}
  else inl (RuntimeError "The size of tensor a must match the size of tensor b").

Definition in_graph (nm : string) (t : Tensor) : bool :=
  existsb (String.eqb nm) (graph t).

(** What [loss.backward()] does to one parameter: a leaf of the loss's graph
    gets its gradient accumulated into [.grad]; any other is left alone.
    [dl nm] stands for the gradient of the loss in the parameter [nm]. *)
Definition Param_backward (loss : Tensor) (dl : string -> list Z -> R) (p : Param)
  : Param :=
  if in_graph (name p) loss then
    {| name := name p;
       data := data p;
       grad := Some {| shape := shape (data p);
                       item := fun idx =>
                         match grad p with
                         | None => dl (name p) idx
                         | Some g => (item g idx + dl (name p) idx)%R
                         end;
                       graph := [] |} |}
  else p.

Definition NNModule_backward (loss : Tensor) (dl : string -> list Z -> R)
  (m : NNModule) : NNModule :=
  match m with
  | MConv2d c =>
      MConv2d {| in_channels := in_channels c; out_channels := out_channels c;
                 kernel_size := kernel_size c; stride := stride c;
                 padding := padding c;
                 weight := Param_backward loss dl (weight c);
                 bias := Param_backward loss dl (bias c) |}
  | MBatchNorm2d b =>
      MBatchNorm2d {| num_features := num_features b; eps := eps b;
                      momentum := momentum b;
                      bn_weight := Param_backward loss dl (bn_weight b);
                      bn_bias := Param_backward loss dl (bn_bias b);
                      running_mean := running_mean b;
                      running_var := running_var b;
                      num_batches_tracked := num_batches_tracked b;
                      training := training b |}
  | MLinear l =>
      MLinear {| in_features := in_features l; out_features := out_features l;
                 lin_weight := Param_backward loss dl (lin_weight l);
                 lin_bias := Param_backward loss dl (lin_bias l) |}
  | _ => m
  end.

End Torch.

(** ** src/models/Discriminator.py *)

Module Models.
Import Torch.

Record Discriminator := mkDiscriminator {
  style_classes : Z;
  layer1 : Sequential;
  layer2 : Sequential;
  layer3 : Sequential;
  layer4 : Sequential;
  layer5 : Sequential;
  probabilities : Sequential;
  styles : Sequential
}.

(** [Discriminator.__init__].  Two things come from the environment: [limit],
    the largest storage the allocator provides, and [init], the random
    initial values of the convolution and linear parameters, by parameter
    name. *)
Definition __init__ (limit : Z) (relu_negative_slope : R) (style_classes : Z)
  (init : string -> list Z -> R) : Raises Discriminator :=
  let neg_slope := relu_negative_slope in
  (c1 <- Conv2d_new limit "layer1.0" 3 64 (4, 4) (2, 2) (1, 1) init;;
   c2 <- Conv2d_new limit "layer2.0" 64 128 (4, 4) (2, 2) (1, 1) init;;
   b2 <- BatchNorm2d_new limit "layer2.1" 128;;
   c3 <- Conv2d_new limit "layer3.0" 128 256 (4, 4) (2, 2) (1, 1) init;;
   b3 <- BatchNorm2d_new limit "layer3.1" 256;;
   c4 <- Conv2d_new limit "layer4.0" 256 512 (4, 4) (2, 2) (1, 1) init;;
   b4 <- BatchNorm2d_new limit "layer4.1" 512;;
   c5 <- Conv2d_new limit "layer5.0" 512 512 (3, 3) (1, 1) (1, 1) init;;
   b5 <- BatchNorm2d_new limit "layer5.1" 512;;
   lp <- Linear_new limit "probabilities.0" 512 1 init;;
   ls <- Linear_new limit "styles.0" 512 style_classes init;;
   inr {| style_classes := style_classes;
          layer1 := [MConv2d c1; MLeakyReLU neg_slope];
          layer2 := [MConv2d c2; MBatchNorm2d b2; MLeakyReLU neg_slope];
          layer3 := [MConv2d c3; MBatchNorm2d b3; MLeakyReLU neg_slope];
          layer4 := [MConv2d c4; MBatchNorm2d b4; MLeakyReLU neg_slope];
          layer5 := [MConv2d c5; MBatchNorm2d b5; MLeakyReLU neg_slope];
          probabilities := [MLinear lp; MSigmoid];
          styles := [MLinear ls; MSoftmax 0] |})%raises.

(** *** The state a method runs in *)

Inductive Line :=
| Text (s : string)
| GradLine (i j : Z) (grad : option Tensor).

(** [self], what was printed, and the classes of the modules called so far
    (the last one is bookkeeping of the model, not state of the program). *)
Record World := mkWorld {
  self : Discriminator;
  stdout : list Line;
  called : list string
}.

Definition M (A : Type) : Type := World -> Raises A * World.

Definition ret {A} (a : A) : M A := fun w => (inr a, w).

Definition bind {A B} (c : M A) (k : A -> M B) : M B :=
  fun w =>
    match c w with
    | (inl e, w') => (inl e, w')
    | (inr a, w') => k a w'
    end.

Definition raise {A} (e : Exception) : M A := fun w => (inl e, w).

Declare Scope py_scope.
Delimit Scope py_scope with py.
Notation "x <- c ;; k" := (bind c (fun x => k))
  (at level 61, c at next level, right associativity) : py_scope.
Notation "c ;; k" := (bind c (fun _ => k))
  (at level 61, right associativity) : py_scope.

(** [assert cond, msg] *)
Definition assert_ (cond : bool) (msg : string) : M unit :=
  if cond then ret tt else raise (AssertionError msg).

Definition print (l : Line) : M unit :=
  fun w => (inr tt, {| self := self w; stdout := stdout w ++ [l]; called := called w |}).

Definition get_self : M Discriminator := fun w => (inr (self w), w).

(** [self.style_classes] *)
Definition self_style_classes : M Z := fun w => (inr (style_classes (self w)), w).

(** [self.<attr>(x)] for a sub-module stored in an attribute of [self]. *)
Definition call (attr : Discriminator -> Sequential)
  (store : Sequential -> Discriminator -> Discriminator) (x : Tensor) : M Tensor :=
  fun w =>
    let '(r, ms, cs) := Sequential_forward (attr (self w)) x in
    (r, {| self := store ms (self w); stdout := stdout w; called := called w ++ cs |}).

(** [Module(...)(x)] for a module built on the spot. *)
Definition apply_fresh (m : NNModule) (x : Tensor) : M Tensor :=
  fun w =>
    (fst (NNModule_forward m x),
     {| self := self w; stdout := stdout w; called := called w ++ [class_name m] |}).

Definition set_layer1 (v : Sequential) (d : Discriminator) : Discriminator :=
  {| style_classes := style_classes d; layer1 := v; layer2 := layer2 d;
     layer3 := layer3 d; layer4 := layer4 d; layer5 := layer5 d;
     probabilities := probabilities d; styles := styles d |}.
Definition set_layer2 (v : Sequential) (d : Discriminator) : Discriminator :=
  {| style_classes := style_classes d; layer1 := layer1 d; layer2 := v;
     layer3 := layer3 d; layer4 := layer4 d; layer5 := layer5 d;
     probabilities := probabilities d; styles := styles d |}.
Definition set_layer3 (v : Sequential) (d : Discriminator) : Discriminator :=
  {| style_classes := style_classes d; layer1 := layer1 d; layer2 := layer2 d;
     layer3 := v; layer4 := layer4 d; layer5 := layer5 d;
     probabilities := probabilities d; styles := styles d |}.
Definition set_layer4 (v : Sequential) (d : Discriminator) : Discriminator :=
  {| style_classes := style_classes d; layer1 := layer1 d; layer2 := layer2 d;
     layer3 := layer3 d; layer4 := v; layer5 := layer5 d;
     probabilities := probabilities d; styles := styles d |}.
Definition set_layer5 (v : Sequential) (d : Discriminator) : Discriminator :=
  {| style_classes := style_classes d; layer1 := layer1 d; layer2 := layer2 d;
     layer3 := layer3 d; layer4 := layer4 d; layer5 := v;
     probabilities := probabilities d; styles := styles d |}.
Definition set_probabilities (v : Sequential) (d : Discriminator) : Discriminator :=
  {| style_classes := style_classes d; layer1 := layer1 d; layer2 := layer2 d;
     layer3 := layer3 d; layer4 := layer4 d; layer5 := layer5 d;
     probabilities := v; styles := styles d |}.
Definition set_styles (v : Sequential) (d : Discriminator) : Discriminator :=
  {| style_classes := style_classes d; layer1 := layer1 d; layer2 := layer2 d;
     layer3 := layer3 d; layer4 := layer4 d; layer5 := layer5 d;
     probabilities := probabilities d; styles := v |}.

(** *** Discriminator.forward *)

Definition input_message : string :=
  "Only pictures with shape [-1, 3, 256, 256] are supported".

Definition size_message (x : Tensor) (expected : string) : string :=
  ("Size of x=" ++ Size_repr (shape x) ++ " should be " ++ expected)%string.

(** Lines 73-88: the input check and the five stages. *)
Definition stages (x : Tensor) : M Tensor :=
  (assert_ (Size_eqb (shape_from1 x) [3; 256; 256]) input_message;;
   x <- call layer1 set_layer1 x;;
   assert_ (Size_eqb (shape_from1 x) [64; 128; 128])
     (size_message x "[-1, 64, 128, 128]");;
   x <- call layer2 set_layer2 x;;
   assert_ (Size_eqb (shape_from1 x) [128; 64; 64])
     (size_message x "[-1, 128, 64, 64]");;
   x <- call layer3 set_layer3 x;;
   assert_ (Size_eqb (shape_from1 x) [256; 32; 32])
     (size_message x "[-1, 256, 32, 32]");;
   x <- call layer4 set_layer4 x;;
   assert_ (Size_eqb (shape_from1 x) [512; 16; 16])
     (size_message x "[-1, 512, 16, 16]");;
   x <- call layer5 set_layer5 x;;
   assert_ (Size_eqb (shape_from1 x) [512; 16; 16])
     (size_message x "[-1, 512, 16, 16]");;
   ret x)%py.

(** Lines 90-93: converting to a [-1, 512] tensor. *)
Definition pooled (x : Tensor) : M Tensor :=
  (x <- apply_fresh (MAvgPool2d 16) x;;
   flatten <- apply_fresh MFlatten x;;
   assert_ (Size_eqb (shape_from1 flatten) [512])
     ("The shape of x: " ++ Size_repr (shape flatten)
      ++ ", but expected: [-1, 512]!")%string;;
   ret flatten)%py.

(** Lines 95-104: the two heads. *)
Definition heads (flatten : Tensor) : M (Tensor * Tensor) :=
  (probabilities <- call probabilities set_probabilities flatten;;
   assert_ (Size_eqb (shape_from1 probabilities) [1])
     ("Size of probabilities=" ++ Size_repr (shape probabilities)
      ++ " should be [-1, 1]")%string;;
   styles <- call styles set_styles flatten;;
   k <- self_style_classes;;
   assert_ (Size_eqb (shape_from1 styles) [k])
     ("Size of style probabilities=" ++ Size_repr (shape styles)
      ++ " should be [-1, " ++ Z_repr k ++ "]")%string;;
   ret (probabilities, styles))%py.

Definition forward (x : Tensor) : M (Tensor * Tensor) :=
  (x <- stages x;;
   flatten <- pooled x;;
   heads flatten)%py.

(** *** Discriminator.display_gradients *)

Fixpoint enumerate_from {A} (i : Z) (l : list A) : list (Z * A) :=
  match l with
  | [] => []
  | a :: rest => (i, a) :: enumerate_from (i + 1) rest
  end.

Definition enumerate {A} (l : list A) : list (Z * A) := enumerate_from 0 l.

(** [for a in l: body a] *)
Fixpoint for_each {A} (l : list A) (body : A -> M unit) : M unit :=
  match l with
  | [] => ret tt
  | a :: rest => (body a;; for_each rest body)%py
  end.

Definition is_not_None {A} (o : option A) : bool :=
  match o with Some _ => true | None => false end.

Definition layers (d : Discriminator) : list Sequential :=
  [layer1 d; layer2 d; layer3 d; layer4 d; layer5 d; probabilities d; styles d].

Definition display_gradients : M unit :=
  (print (Text "printing gradients of each layer...");;
   d <- get_self;;
   for_each (enumerate (layers d)) (fun '(i, layer) =>
     for_each (enumerate (Sequential_parameters layer)) (fun '(j, module) =>
       print (GradLine i j (grad module));;
       assert_ (is_not_None (grad module)) "This gradient in this module is None!")))%py.


(** *** The training loop's [loss.backward()], seen from the discriminator

    Autograd refuses a loss that is not a scalar; otherwise every parameter
    of [self] that is a leaf of the loss's graph receives a gradient. *)
Definition backward (loss : Tensor) (dl : string -> list Z -> R) : M unit :=
  fun w =>
    match shape loss with
    | [] =>
        let d := self w in
        let f := map (NNModule_backward loss dl) in
        (inr tt,
         {| self := {| style_classes := style_classes d;
                       layer1 := f (layer1 d); layer2 := f (layer2 d);
                       layer3 := f (layer3 d); layer4 := f (layer4 d);
                       layer5 := f (layer5 d);
                       probabilities := f (probabilities d);
                       styles := f (styles d) |};
            stdout := stdout w; called := called w |})
    | _ => (inl (RuntimeError "grad can be implicitly created only for scalar outputs"), w)
    end.

(** *** The architecture of a discriminator

    What [__init__] fixes and no method changes: the classes of the modules
    of each attribute, their hyper-parameters and the names of their
    parameters.  Weights, gradients, slopes, running statistics and the
    training flags are left out. *)

Inductive ModuleArch :=
| AConv2d (cin cout : Z) (k s p : Z * Z) (wname bname : string)
| ABatchNorm2d (features : Z) (wname bname : string)
| ALeakyReLU
| AAvgPool2d (k : Z)
| AFlatten
| ALinear (fin fout : Z) (wname bname : string)
| ASigmoid
| ASoftmax (dim : Z).

Definition arch_of (m : NNModule) : ModuleArch :=
  match m with
  | MConv2d c =>
      AConv2d (in_channels c) (out_channels c) (kernel_size c) (stride c)
        (padding c) (name (weight c)) (name (bias c))
  | MBatchNorm2d b =>
      ABatchNorm2d (num_features b) (name (bn_weight b)) (name (bn_bias b))
  | MLeakyReLU _ => ALeakyReLU
  | MAvgPool2d k => AAvgPool2d k
  | MFlatten => AFlatten
  | MLinear l =>
      ALinear (in_features l) (out_features l) (name (lin_weight l))
        (name (lin_bias l))
  | MSigmoid => ASigmoid
  | MSoftmax d => ASoftmax d
  end.

Definition conv_bn (prefix : string) (cin cout : Z) (k s : Z * Z) : list ModuleArch :=
  [AConv2d cin cout k s (1, 1) (prefix ++ ".0.weight") (prefix ++ ".0.bias");
   ABatchNorm2d cout (prefix ++ ".1.weight") (prefix ++ ".1.bias");
   ALeakyReLU]%string.

Definition architecture (style_classes : Z) : list (list ModuleArch) :=
  [ [AConv2d 3 64 (4, 4) (2, 2) (1, 1) "layer1.0.weight" "layer1.0.bias"; ALeakyReLU];
    conv_bn "layer2" 64 128 (4, 4) (2, 2);
    conv_bn "layer3" 128 256 (4, 4) (2, 2);
    conv_bn "layer4" 256 512 (4, 4) (2, 2);
    conv_bn "layer5" 512 512 (3, 3) (1, 1);
    [ALinear 512 1 "probabilities.0.weight" "probabilities.0.bias"; ASigmoid];
    [ALinear 512 style_classes "styles.0.weight" "styles.0.bias"; ASoftmax 0] ].

(** [d] has the architecture that [__init__] gives a discriminator with
    [style_classes d] classes. *)
Definition built (d : Discriminator) : Prop :=
  map (map arch_of) (layers d) = architecture (style_classes d).

(** *** What a forward call may change

    A batch-normalisation module in training mode may come back with other
    running statistics and another batch counter; every other field of it,
    and every other module, comes back as it was. *)

Definition bn_frame (b0 b : BatchNorm2d) : Prop :=
  num_features b = num_features b0 /\ eps b = eps b0 /\ momentum b = momentum b0 /\
  bn_weight b = bn_weight b0 /\ bn_bias b = bn_bias b0 /\ training b = training b0.

Definition module_evolved (m0 m : NNModule) : Prop :=
  match m0, m with
  | MBatchNorm2d b0, MBatchNorm2d b =>
      bn_frame b0 b /\ (training b0 = false -> b = b0)
  | _, _ => m = m0
  end.

Definition evolved (d0 d : Discriminator) : Prop :=
  style_classes d = style_classes d0 /\
  Forall2 (Forall2 module_evolved) (layers d0) (layers d).

(** No batch-normalisation module of [d] is in training mode
    (the state [self.eval()] leaves). *)
Definition in_training (m : NNModule) : bool :=
  match m with
  | MBatchNorm2d b => training b
  | _ => false
  end.

Definition eval_mode (d : Discriminator) : Prop :=
  forallb (forallb (fun m => negb (in_training m))) (layers d) = true.

(** The parameters of [self], as [display_gradients] walks them. *)
Definition all_parameters (d : Discriminator) : list Param :=
  flat_map Sequential_parameters (layers d).

(** A computation that changes [self] within the frame above, and prints
    nothing. *)
Definition frames {A} (c : M A) : Prop :=
  forall w, evolved (self w) (self (snd (c w))) /\ stdout (snd (c w)) = stdout w.

(** The classes of the modules that the five stages and the two heads call,
    and the names of the parameters of the five stages, in order. *)
Definition stage_classes : list string :=
  ["Conv2d"; "LeakyReLU"] ++
  ["Conv2d"; "BatchNorm2d"; "LeakyReLU"] ++ ["Conv2d"; "BatchNorm2d"; "LeakyReLU"] ++
  ["Conv2d"; "BatchNorm2d"; "LeakyReLU"] ++ ["Conv2d"; "BatchNorm2d"; "LeakyReLU"].

Definition head_classes : list string := ["Linear"; "Sigmoid"; "Linear"; "Softmax"].

Definition stage_parameters : list string :=
  ["layer1.0.weight"; "layer1.0.bias";
   "layer2.0.weight"; "layer2.0.bias"; "layer2.1.weight"; "layer2.1.bias";
   "layer3.0.weight"; "layer3.0.bias"; "layer3.1.weight"; "layer3.1.bias";
   "layer4.0.weight"; "layer4.0.bias"; "layer4.1.weight"; "layer4.1.bias";
   "layer5.0.weight"; "layer5.0.bias"; "layer5.1.weight"; "layer5.1.bias"].

(** A computation whose result does not depend on what a forward call may
    have changed in [self], and which keeps two such states related. *)
Definition respects {A} (c : M A) : Prop :=
  forall w0 w, evolved (self w0) (self w) ->
    fst (c w) = fst (c w0) /\ evolved (self (snd (c w0))) (self (snd (c w))).

(** A row of [k] scores is a categorical distribution. *)
Definition categorical (k : Z) (row : Z -> R) : Prop :=
  (forall c, 0 <= c < k -> (0 <= row c)%R) /\ Rsum k row = 1%R.

(** *** A concrete discriminator and a concrete batch *)

Definition zero_init : string -> list Z -> R := fun _ _ => 0%R.

Definition example_tensor (s : Size) : Tensor :=
  {| shape := s; item := fun _ => 0%R; graph := [] |}.

Definition example_image (N : Z) : Tensor := example_tensor [N; 3; 256; 256].

(** An allocator that provides up to 4 GiB. *)
Definition example_limit : Z := 4294967296.

Definition example_D (k : Z) : Discriminator :=
  match __init__ example_limit (1 / 5) k zero_init with
  | inr d => d
  | inl _ => mkDiscriminator k [] [] [] [] [] [] []
  end.

Definition example_world (k : Z) : World :=
  {| self := example_D k; stdout := []; called := [] |}.

(** The batch counter of the batch normalisation of stage 2. *)
Definition layer2_batches (d : Discriminator) : option Z :=
  match layer2 d with
  | [_; MBatchNorm2d b; _] => Some (num_batches_tracked b)
  | _ => None
  end.

(** *** What [display_gradients] prints

    One entry per parameter, in the order of the two loops: the line that is
    printed for it and whether its gradient is there.  [run_checks] prints
    the lines up to and including the first one whose check fails. *)

Definition none_message : string := "This gradient in this module is None!".

Definition param_entries (i : Z) (ps : list (Z * Param)) : list (Line * bool) :=
  map (fun '(j, p) => (GradLine i j (grad p), is_not_None (grad p))) ps.

Definition layer_entries (ls : list (Z * Sequential)) : list (Line * bool) :=
  flat_map (fun '(i, layer) =>
              param_entries i (enumerate (Sequential_parameters layer))) ls.

Definition grad_entries (d : Discriminator) : list (Line * bool) :=
  layer_entries (enumerate (layers d)).

Fixpoint run_checks (es : list (Line * bool)) : list Line * bool :=
  match es with
  | [] => ([], true)
  | (l, ok) :: rest =>
      if ok then (l :: fst (run_checks rest), snd (run_checks rest))
      else ([l], false)
  end.

Definition outcome (ok : bool) : Raises unit :=
  if ok then inr tt else inl (AssertionError none_message).

Definition printed (w : World) (ls : list Line) : World :=
  {| self := self w; stdout := stdout w ++ ls; called := called w |}.

Definition gradients_present (d : Discriminator) : bool :=
  forallb (fun p => is_not_None (grad p)) (all_parameters d).

Definition line_grad (l : Line) : option (option Tensor) :=
  match l with
  | GradLine _ _ g => Some g
  | Text _ => None
  end.

(** The names of the parameters of a module of a given architecture. *)
Definition arch_names (a : ModuleArch) : list string :=
  match a with
  | AConv2d _ _ _ _ _ w b => [w; b]
  | ABatchNorm2d _ w b => [w; b]
  | ALinear _ _ w b => [w; b]
  | _ => []
  end.

(** *** Observations used by further properties *)

(** The batch counters of the batch-normalisation modules of a layer, as
    they are, and as a call that succeeds leaves them: one more for a module
    in training mode. *)
Definition batch_counters (ms : Sequential) : list Z :=
  flat_map (fun m =>
    match m with
    | MBatchNorm2d b => [num_batches_tracked b]
    | _ => []
    end) ms.

Definition bumped_counters (ms : Sequential) : list Z :=
  flat_map (fun m =>
    match m with
    | MBatchNorm2d b => [num_batches_tracked b + (if training b then 1 else 0)]
    | _ => []
    end) ms.

Definition all_batch_counters (d : Discriminator) : list Z :=
  flat_map batch_counters (layers d).

Definition all_bumped_counters (d : Discriminator) : list Z :=
  flat_map bumped_counters (layers d).

(** The [i] and [j] of a printed line "Layer: i, module: j, grad: ...". *)
Definition line_key (l : Line) : option (Z * Z) :=
  match l with
  | GradLine i j _ => Some (i, j)
  | Text _ => None
  end.

(** The 22 pairs (layer, module) of a built discriminator, in the order of
    the two loops of [display_gradients]. *)
Definition parameter_keys : list (Z * Z) :=
  [(0, 0); (0, 1);
   (1, 0); (1, 1); (1, 2); (1, 3);
   (2, 0); (2, 1); (2, 2); (2, 3);
   (3, 0); (3, 1); (3, 2); (3, 3);
   (4, 0); (4, 1); (4, 2); (4, 3);
   (5, 0); (5, 1);
   (6, 0); (6, 1)].

(** The number of scalars in the parameters of [d]. *)
Definition parameter_count (d : Discriminator) : Z :=
  fold_right Z.add 0 (map (fun p => numel (shape (data p))) (all_parameters d)).

(** The elements of a list of checked items up to and including the first
    one whose check fails, and whether every check passed. *)
Fixpoint until_first_false {A} (l : list (A * bool)) : list A * bool :=
  match l with
  | [] => ([], true)
  | (a, ok) :: rest =>
      if ok then (a :: fst (until_first_false rest), snd (until_first_false rest))
      else ([a], false)
  end.

(** A discriminator whose gradients are all there: the example, after a
    backward pass of a scalar loss that every parameter is a leaf of. *)
Definition example_loss : Tensor :=
  {| shape := []; item := fun _ => 0%R;
     graph := map name (all_parameters (example_D 3)) |}.

Definition example_graded : World :=
  snd (backward example_loss zero_init (example_world 3)).

End Models.

Import Torch Models.

(** * Properties *)

(** ** Sizes and sums *)

Lemma Size_eqb_eq (a b : Size) : Size_eqb a b = true <-> a = b.
Proof.
  revert b; induction a as [|x a IH]; intros [|y b]; simpl; split;
    try congruence; try reflexivity.
  - intros H. apply andb_true_iff in H as [H1 H2].
    apply Z.eqb_eq in H1. apply IH in H2. congruence.
  - intros H. injection H as -> ->.
    apply andb_true_iff. split; [apply Z.eqb_refl | now apply IH].
Qed.

Lemma Size_eqb_refl (a : Size) : Size_eqb a a = true.
Proof. now apply Size_eqb_eq. Qed.

Lemma Size_eqb_neq (a b : Size) : a <> b -> Size_eqb a b = false.
Proof.
  intros H. destruct (Size_eqb a b) eqn:E; [|reflexivity].
  apply Size_eqb_eq in E. contradiction.
Qed.

(** ** The frame of a forward call *)

Lemma bn_frame_refl (b : BatchNorm2d) : bn_frame b b.
Proof. repeat split. Qed.

Lemma module_evolved_refl (m : NNModule) : module_evolved m m.
Proof. destruct m; simpl; auto using bn_frame_refl. Qed.

Lemma module_evolved_trans (m0 m1 m2 : NNModule) :
  module_evolved m0 m1 -> module_evolved m1 m2 -> module_evolved m0 m2.
Proof.
  destruct m0; simpl; intros H1 H2;
    try (subst m1; simpl in H2; exact H2).
  destruct m1; try discriminate H1.
  destruct m2; try discriminate H2.
  destruct H1 as [(F1 & F2 & F3 & F4 & F5 & F6) E1].
  destruct H2 as [(G1 & G2 & G3 & G4 & G5 & G6) E2].
  split; [repeat split; congruence|].
  intros Hev. rewrite E2; [now apply E1 | congruence].
Qed.

Lemma layer_evolved_refl (ms : Sequential) : Forall2 module_evolved ms ms.
Proof. induction ms; constructor; auto using module_evolved_refl. Qed.

Lemma layer_evolved_trans (a b c : Sequential) :
  Forall2 module_evolved a b -> Forall2 module_evolved b c ->
  Forall2 module_evolved a c.
Proof.
  intros H; revert c; induction H; intros c Hc; inversion Hc; subst;
    constructor; eauto using module_evolved_trans.
Qed.

Lemma evolved_refl (d : Discriminator) : evolved d d.
Proof.
  split; [reflexivity|].
  unfold layers; repeat constructor; apply layer_evolved_refl.
Qed.

Lemma evolved_trans (a b c : Discriminator) :
  evolved a b -> evolved b c -> evolved a c.
Proof.
  intros [S1 L1] [S2 L2]. split; [congruence|].
  revert L1 L2. generalize (layers a) (layers b) (layers c).
  intros la lb lc H; revert lc; induction H; intros lc Hc; inversion Hc; subst;
    constructor; eauto using layer_evolved_trans.
Qed.

Lemma BatchNorm2d_forward_evolved (b : BatchNorm2d) (x : Tensor) :
  module_evolved (MBatchNorm2d b) (MBatchNorm2d (snd (BatchNorm2d_forward b x))).
Proof.
  unfold BatchNorm2d_forward.
  destruct (shape x) as [|N [|C [|H [|W [|? ?]]]]];
    try apply (module_evolved_refl (MBatchNorm2d b)).
  destruct (training b) eqn:T.
  - destruct (N * H * W =? 1); [|destruct (negb (C =? num_features b))];
      simpl; (split; [repeat split; auto | congruence]).
  - destruct (negb (C =? num_features b));
      apply (module_evolved_refl (MBatchNorm2d b)).
Qed.

Lemma NNModule_forward_evolved (m : NNModule) (x : Tensor) :
  module_evolved m (snd (NNModule_forward m x)).
Proof.
  destruct m; try apply module_evolved_refl.
  simpl NNModule_forward.
  pose proof (BatchNorm2d_forward_evolved m x) as H.
  destruct (BatchNorm2d_forward m x); exact H.
Qed.

Lemma Sequential_forward_evolved (ms : Sequential) (x : Tensor) :
  Forall2 module_evolved ms (snd (fst (Sequential_forward ms x))).
Proof.
  revert x; induction ms as [|m ms IH]; intros x; simpl; [constructor|].
  pose proof (NNModule_forward_evolved m x) as Hm.
  destruct (NNModule_forward m x) as [[e|y] m']; simpl in *.
  - constructor; [exact Hm | apply layer_evolved_refl].
  - specialize (IH y).
    destruct (Sequential_forward ms y) as [[r ms'] cs]; simpl in *.
    constructor; assumption.
Qed.

Lemma module_evolved_arch (m0 m : NNModule) :
  module_evolved m0 m -> arch_of m = arch_of m0.
Proof.
  destruct m0; simpl; intros H; try (subst; reflexivity).
  destruct m; try discriminate H.
  destruct H as [(F1 & F2 & F3 & F4 & F5 & F6) _]. simpl. congruence.
Qed.

Lemma module_evolved_parameters (m0 m : NNModule) :
  module_evolved m0 m -> parameters m = parameters m0.
Proof.
  destruct m0; simpl; intros H; try (subst; reflexivity).
  destruct m; try discriminate H.
  destruct H as [(F1 & F2 & F3 & F4 & F5 & F6) _]. simpl. congruence.
Qed.

Lemma module_evolved_eval (m0 m : NNModule) :
  module_evolved m0 m -> in_training m0 = false -> m = m0.
Proof.
  destruct m0; simpl; intros H T; try (subst; reflexivity).
  destruct m; try discriminate H.
  destruct H as [_ E]. now rewrite E.
Qed.

Lemma layer_evolved_arch (a b : Sequential) :
  Forall2 module_evolved a b -> map arch_of b = map arch_of a.
Proof.
  induction 1; simpl; [reflexivity|].
  f_equal; auto using module_evolved_arch.
Qed.

Lemma layer_evolved_parameters (a b : Sequential) :
  Forall2 module_evolved a b -> Sequential_parameters b = Sequential_parameters a.
Proof.
  unfold Sequential_parameters. induction 1; simpl; [reflexivity|].
  f_equal; auto using module_evolved_parameters.
Qed.

Lemma layer_evolved_eval (a b : Sequential) :
  Forall2 module_evolved a b ->
  forallb (fun m => negb (in_training m)) a = true -> b = a.
Proof.
  induction 1; simpl; [reflexivity|].
  intros T. apply andb_true_iff in T as [T1 T2].
  apply negb_true_iff in T1.
  f_equal; auto using module_evolved_eval.
Qed.

Lemma evolved_built (d0 d : Discriminator) :
  evolved d0 d -> built d0 -> built d.
Proof.
  unfold built. intros [S L] B. rewrite S, <- B. clear B S.
  induction L; simpl; [reflexivity|].
  f_equal; auto using layer_evolved_arch.
Qed.

Lemma evolved_parameters (d0 d : Discriminator) :
  evolved d0 d -> all_parameters d = all_parameters d0.
Proof.
  unfold all_parameters. intros [_ L].
  induction L; simpl; [reflexivity|].
  f_equal; auto using layer_evolved_parameters.
Qed.

Lemma layers_inj (d0 d : Discriminator) :
  style_classes d = style_classes d0 -> layers d = layers d0 -> d = d0.
Proof.
  destruct d0, d; unfold layers; simpl. intros -> H.
  injection H as -> -> -> -> -> -> ->. reflexivity.
Qed.

Lemma evolved_eval (d0 d : Discriminator) :
  evolved d0 d -> eval_mode d0 -> d = d0.
Proof.
  unfold eval_mode. intros [S L] E. apply layers_inj; [exact S|].
  induction L; simpl in *; [reflexivity|].
  apply andb_true_iff in E as [E1 E2].
  f_equal; auto using layer_evolved_eval.
Qed.

(** ** Every step of [forward] stays within the frame *)

Lemma frames_ret {A} (a : A) : frames (ret a).
Proof. intros w; split; [apply evolved_refl | reflexivity]. Qed.

Lemma frames_raise {A} (e : Exception) : frames (@raise A e).
Proof. intros w; split; [apply evolved_refl | reflexivity]. Qed.

Lemma frames_assert (c : bool) (msg : string) : frames (assert_ c msg).
Proof. destruct c; [apply frames_ret | apply frames_raise]. Qed.

Lemma frames_get_self : frames get_self.
Proof. intros w; split; [apply evolved_refl | reflexivity]. Qed.

Lemma frames_self_style_classes : frames self_style_classes.
Proof. intros w; split; [apply evolved_refl | reflexivity]. Qed.

Lemma frames_apply_fresh (m : NNModule) (x : Tensor) : frames (apply_fresh m x).
Proof. intros w; split; [apply evolved_refl | reflexivity]. Qed.

Lemma frames_bind {A B} (c : M A) (k : A -> M B) :
  frames c -> (forall a, frames (k a)) -> frames (bind c k).
Proof.
  intros Hc Hk w. unfold bind.
  destruct (Hc w) as [E1 O1].
  destruct (c w) as [[e|a] w1]; simpl in *; [split; assumption|].
  destruct (Hk a w1) as [E2 O2].
  split; [eapply evolved_trans; eassumption | congruence].
Qed.

Ltac frames_call :=
  intros w; unfold call;
  match goal with
  | |- context [Sequential_forward ?ms ?x] =>
      pose proof (Sequential_forward_evolved ms x) as Hev;
      destruct (Sequential_forward ms x) as [[r ms'] cs]
  end;
  simpl in *; split; [|reflexivity];
  split; [reflexivity|];
  unfold layers; simpl;
  repeat (constructor; try apply layer_evolved_refl; try assumption).

Lemma frames_call_layer1 x : frames (call layer1 set_layer1 x).
Proof. frames_call. Qed.
Lemma frames_call_layer2 x : frames (call layer2 set_layer2 x).
Proof. frames_call. Qed.
Lemma frames_call_layer3 x : frames (call layer3 set_layer3 x).
Proof. frames_call. Qed.
Lemma frames_call_layer4 x : frames (call layer4 set_layer4 x).
Proof. frames_call. Qed.
Lemma frames_call_layer5 x : frames (call layer5 set_layer5 x).
Proof. frames_call. Qed.
Lemma frames_call_probabilities x : frames (call probabilities set_probabilities x).
Proof. frames_call. Qed.
Lemma frames_call_styles x : frames (call styles set_styles x).
Proof. frames_call. Qed.

Create HintDb frames.
#[local] Hint Resolve frames_ret frames_raise frames_assert frames_get_self
  frames_self_style_classes
  frames_apply_fresh frames_call_layer1 frames_call_layer2 frames_call_layer3
  frames_call_layer4 frames_call_layer5 frames_call_probabilities
  frames_call_styles : frames.

Ltac frames_steps :=
  repeat first [ apply frames_bind; [|intros ?] | solve [auto with frames] ].

Lemma frames_stages x : frames (stages x).
Proof. unfold stages. frames_steps. Qed.

Lemma frames_pooled x : frames (pooled x).
Proof. unfold pooled. frames_steps. Qed.

Lemma frames_heads x : frames (heads x).
Proof. unfold heads. frames_steps. Qed.

Lemma frames_forward x : frames (forward x).
Proof.
  unfold forward. apply frames_bind; [apply frames_stages|]. intros x5.
  apply frames_bind; [apply frames_pooled | apply frames_heads].
Qed.

(** ** Running the monad *)

Lemma bind_run {A B} (c : M A) (k : A -> M B) (w w1 : World) (a : A) :
  c w = (inr a, w1) -> bind c k w = k a w1.
Proof. intros H. unfold bind. now rewrite H. Qed.

Lemma bind_raise {A B} (c : M A) (k : A -> M B) (w w1 : World) (e : Exception) :
  c w = (inl e, w1) -> bind c k w = (inl e, w1).
Proof. intros H. unfold bind. now rewrite H. Qed.

Lemma assert_run (cond : bool) (msg : string) (w : World) :
  cond = true -> assert_ cond msg w = (inr tt, w).
Proof. intros ->. reflexivity. Qed.

Lemma call_run attr store x w r ms' cs :
  Sequential_forward (attr (self w)) x = (r, ms', cs) ->
  call attr store x w =
  (r, {| self := store ms' (self w); stdout := stdout w;
         called := called w ++ cs |}).
Proof. intros H. unfold call. now rewrite H. Qed.

(** ** The blocks of the architecture, run on an input of the right shape *)

Lemma Conv2d_forward_ok c x N H W kh kw sh sw ph pw :
  shape x = [N; in_channels c; H; W] ->
  kernel_size c = (kh, kw) -> stride c = (sh, sw) -> padding c = (ph, pw) ->
  kh <= H + 2 * ph -> kw <= W + 2 * pw ->
  Conv2d_forward c x =
  inr {| shape := [N; out_channels c; conv_out H kh sh ph; conv_out W kw sw pw];
         item := Conv2d_item c x H W;
         graph := graph x ++ [name (weight c); name (bias c)] |}.
Proof.
  intros Hx Hk Hs Hp Hh Hw.
  unfold Conv2d_forward. rewrite Hx, Z.eqb_refl, Hk, Hs, Hp.
  cbn [fst snd negb].
  replace (H + 2 * ph <? kh) with false by (symmetry; apply Z.ltb_ge; lia).
  replace (W + 2 * pw <? kw) with false by (symmetry; apply Z.ltb_ge; lia).
  reflexivity.
Qed.

Lemma BatchNorm2d_forward_ok b x N H W :
  shape x = [N; num_features b; H; W] -> N * H * W <> 1 ->
  exists y b',
    BatchNorm2d_forward b x = (inr y, b') /\ shape y = shape x /\
    graph y = graph x ++ [name (bn_weight b); name (bn_bias b)].
Proof.
  intros Hx Hn. unfold BatchNorm2d_forward. rewrite Hx, Z.eqb_refl.
  apply Z.eqb_neq in Hn. rewrite Hn. cbn [negb].
  destruct (training b); do 2 eexists; repeat split.
Qed.

Lemma conv_leaky_run ms x cin cout kh kw sh sw ph pw wn bn N H W :
  map arch_of ms = [AConv2d cin cout (kh, kw) (sh, sw) (ph, pw) wn bn; ALeakyReLU] ->
  shape x = [N; cin; H; W] -> kh <= H + 2 * ph -> kw <= W + 2 * pw ->
  exists y,
    Sequential_forward ms x = (inr y, ms, ["Conv2d"; "LeakyReLU"]) /\
    shape y = [N; cout; conv_out H kh sh ph; conv_out W kw sw pw] /\
    graph y = graph x ++ [wn; bn].
Proof.
  intros A Hx Hh Hw.
  destruct ms as [|[c| | | | | | |] [|[| |s| | | | |] [|? ?]]]; try discriminate A.
  cbn [map arch_of] in A. injection A as <- <- Hk Hs Hp <- <-.
  cbn [Sequential_forward NNModule_forward class_name].
  rewrite (Conv2d_forward_ok c x N H W kh kw sh sw ph pw) by assumption.
  eexists. split; [reflexivity|]. split; reflexivity.
Qed.

Lemma conv_bn_leaky_run ms x cin cout kh kw sh sw ph pw wn bn bwn bbn N H W :
  map arch_of ms =
    [AConv2d cin cout (kh, kw) (sh, sw) (ph, pw) wn bn;
     ABatchNorm2d cout bwn bbn; ALeakyReLU] ->
  shape x = [N; cin; H; W] -> kh <= H + 2 * ph -> kw <= W + 2 * pw ->
  N * conv_out H kh sh ph * conv_out W kw sw pw <> 1 ->
  exists y ms',
    Sequential_forward ms x = (inr y, ms', ["Conv2d"; "BatchNorm2d"; "LeakyReLU"]) /\
    shape y = [N; cout; conv_out H kh sh ph; conv_out W kw sw pw] /\
    graph y = graph x ++ [wn; bn] ++ [bwn; bbn].
Proof.
  intros A Hx Hh Hw Hn.
  destruct ms as [|[c| | | | | | |] [|[|b| | | | | |] [|[| |s| | | | |] [|? ?]]]];
    try discriminate A.
  cbn [map arch_of] in A. injection A as <- <- Hk Hs Hp <- <- Hf <- <-.
  cbn [Sequential_forward NNModule_forward class_name].
  rewrite (Conv2d_forward_ok c x N H W kh kw sh sw ph pw) by assumption.
  match goal with
  | |- context [BatchNorm2d_forward b ?t] =>
      destruct (BatchNorm2d_forward_ok b t N (conv_out H kh sh ph)
                  (conv_out W kw sw pw)) as (y & b' & R & S & G);
      [cbn [shape]; now rewrite Hf | exact Hn |]
  end.
  rewrite R. cbn [shape graph] in S, G.
  eexists. eexists. split; [reflexivity|].
  cbn [LeakyReLU_forward shape graph]. rewrite S, G, <- app_assoc.
  split; reflexivity.
Qed.

Lemma Linear_forward_ok l x N :
  shape x = [N; in_features l] ->
  Linear_forward l x =
  inr {| shape := [N; out_features l];
         item := Linear_item l x;
         graph := graph x ++ [name (lin_weight l); name (lin_bias l)] |}.
Proof.
  intros Hx. unfold Linear_forward. rewrite Hx.
  cbn [rev app]. rewrite Z.eqb_refl. reflexivity.
Qed.

Lemma linear_sigmoid_run ms x fin fout wn bn N :
  map arch_of ms = [ALinear fin fout wn bn; ASigmoid] ->
  shape x = [N; fin] ->
  exists z,
    Sequential_forward ms x = (inr (Sigmoid_forward z), ms, ["Linear"; "Sigmoid"]) /\
    shape z = [N; fout] /\ graph z = graph x ++ [wn; bn].
Proof.
  intros A Hx.
  destruct ms as [|[| | | | |l| |] [|[| | | | | | |] [|? ?]]]; try discriminate A.
  cbn [map arch_of] in A. injection A as <- <- <- <-.
  cbn [Sequential_forward NNModule_forward class_name].
  rewrite (Linear_forward_ok l x N Hx).
  eexists. split; [reflexivity|]. split; reflexivity.
Qed.

Lemma linear_softmax_run ms x fin fout wn bn N :
  map arch_of ms = [ALinear fin fout wn bn; ASoftmax 0] ->
  shape x = [N; fin] ->
  exists z,
    Sequential_forward ms x =
      (inr {| shape := [N; fout]; item := Softmax_item 0 z; graph := graph z |},
       ms, ["Linear"; "Softmax"]) /\
    shape z = [N; fout] /\ graph z = graph x ++ [wn; bn].
Proof.
  intros A Hx.
  destruct ms as [|[| | | | |l| |] [|[| | | | | | |d] [|? ?]]]; try discriminate A.
  cbn [map arch_of] in A. injection A as <- <- <- <- ->.
  cbn [Sequential_forward NNModule_forward class_name].
  rewrite (Linear_forward_ok l x N Hx).
  eexists. split; [reflexivity|]. split; reflexivity.
Qed.

(** ** Calling the attributes of a built discriminator *)

Lemma built_layers (d : Discriminator) :
  built d ->
  map arch_of (layer1 d) =
    [AConv2d 3 64 (4, 4) (2, 2) (1, 1) "layer1.0.weight" "layer1.0.bias"; ALeakyReLU] /\
  map arch_of (layer2 d) = conv_bn "layer2" 64 128 (4, 4) (2, 2) /\
  map arch_of (layer3 d) = conv_bn "layer3" 128 256 (4, 4) (2, 2) /\
  map arch_of (layer4 d) = conv_bn "layer4" 256 512 (4, 4) (2, 2) /\
  map arch_of (layer5 d) = conv_bn "layer5" 512 512 (3, 3) (1, 1) /\
  map arch_of (probabilities d) =
    [ALinear 512 1 "probabilities.0.weight" "probabilities.0.bias"; ASigmoid] /\
  map arch_of (styles d) =
    [ALinear 512 (style_classes d) "styles.0.weight" "styles.0.bias"; ASoftmax 0].
Proof.
  unfold built, layers, architecture. cbn [map]. intros H.
  injection H as H1 H2 H3 H4 H5 H6 H7. repeat split; assumption.
Qed.

Section Calls.

Variable attr : Discriminator -> Sequential.
Variable store : Sequential -> Discriminator -> Discriminator.
Hypothesis call_frames : forall x, frames (call attr store x).

Lemma call_keeps x w r w1 :
  built (self w) -> call attr store x w = (r, w1) ->
  built (self w1) /\ stdout w1 = stdout w /\
  style_classes (self w1) = style_classes (self w).
Proof.
  intros B R. destruct (call_frames x w) as [E O]. rewrite R in E, O.
  cbn [snd] in E, O. split; [eapply evolved_built; eassumption|].
  split; [exact O | apply E].
Qed.

Lemma call_conv_leaky x w cin cout kh kw sh sw ph pw wn bn N H W :
  built (self w) ->
  map arch_of (attr (self w)) =
    [AConv2d cin cout (kh, kw) (sh, sw) (ph, pw) wn bn; ALeakyReLU] ->
  shape x = [N; cin; H; W] -> kh <= H + 2 * ph -> kw <= W + 2 * pw ->
  exists y w1,
    call attr store x w = (inr y, w1) /\ built (self w1) /\
    stdout w1 = stdout w /\ style_classes (self w1) = style_classes (self w) /\
    called w1 = called w ++ ["Conv2d"; "LeakyReLU"] /\
    shape y = [N; cout; conv_out H kh sh ph; conv_out W kw sw pw] /\
    graph y = graph x ++ [wn; bn].
Proof.
  intros B A Hx Hh Hw.
  destruct (conv_leaky_run _ _ _ _ _ _ _ _ _ _ _ _ _ _ _ A Hx Hh Hw)
    as (y & R & S & G).
  apply (call_run attr store x w) in R.
  destruct (call_keeps _ _ _ _ B R) as (B1 & O1 & K1).
  do 2 eexists. split; [exact R|]. repeat split; assumption.
Qed.

Lemma call_conv_bn_leaky x w cin cout kh kw sh sw ph pw wn bn bwn bbn N H W :
  built (self w) ->
  map arch_of (attr (self w)) =
    [AConv2d cin cout (kh, kw) (sh, sw) (ph, pw) wn bn;
     ABatchNorm2d cout bwn bbn; ALeakyReLU] ->
  shape x = [N; cin; H; W] -> kh <= H + 2 * ph -> kw <= W + 2 * pw ->
  N * conv_out H kh sh ph * conv_out W kw sw pw <> 1 ->
  exists y w1,
    call attr store x w = (inr y, w1) /\ built (self w1) /\
    stdout w1 = stdout w /\ style_classes (self w1) = style_classes (self w) /\
    called w1 = called w ++ ["Conv2d"; "BatchNorm2d"; "LeakyReLU"] /\
    shape y = [N; cout; conv_out H kh sh ph; conv_out W kw sw pw] /\
    graph y = graph x ++ [wn; bn] ++ [bwn; bbn].
Proof.
  intros B A Hx Hh Hw Hn.
  destruct (conv_bn_leaky_run _ _ _ _ _ _ _ _ _ _ _ _ _ _ _ _ _ A Hx Hh Hw Hn)
    as (y & ms' & R & S & G).
  apply (call_run attr store x w) in R.
  destruct (call_keeps _ _ _ _ B R) as (B1 & O1 & K1).
  do 2 eexists. split; [exact R|]. repeat split; assumption.
Qed.

Lemma call_linear_sigmoid x w fin fout wn bn N :
  built (self w) ->
  map arch_of (attr (self w)) = [ALinear fin fout wn bn; ASigmoid] ->
  shape x = [N; fin] ->
  exists z w1,
    call attr store x w = (inr (Sigmoid_forward z), w1) /\ built (self w1) /\
    stdout w1 = stdout w /\ style_classes (self w1) = style_classes (self w) /\
    called w1 = called w ++ ["Linear"; "Sigmoid"] /\
    shape z = [N; fout] /\ graph z = graph x ++ [wn; bn].
Proof.
  intros B A Hx.
  destruct (linear_sigmoid_run _ _ _ _ _ _ _ A Hx) as (z & R & S & G).
  apply (call_run attr store x w) in R.
  destruct (call_keeps _ _ _ _ B R) as (B1 & O1 & K1).
  do 2 eexists. split; [exact R|]. repeat split; assumption.
Qed.

Lemma call_linear_softmax x w fin fout wn bn N :
  built (self w) ->
  map arch_of (attr (self w)) = [ALinear fin fout wn bn; ASoftmax 0] ->
  shape x = [N; fin] ->
  exists z w1,
    call attr store x w =
      (inr {| shape := [N; fout]; item := Softmax_item 0 z; graph := graph z |}, w1) /\
    built (self w1) /\
    stdout w1 = stdout w /\ style_classes (self w1) = style_classes (self w) /\
    called w1 = called w ++ ["Linear"; "Softmax"] /\
    shape z = [N; fout] /\ graph z = graph x ++ [wn; bn].
Proof.
  intros B A Hx.
  destruct (linear_softmax_run _ _ _ _ _ _ _ A Hx) as (z & R & S & G).
  apply (call_run attr store x w) in R.
  destruct (call_keeps _ _ _ _ B R) as (B1 & O1 & K1).
  do 2 eexists. split; [exact R|]. repeat split; assumption.
Qed.

End Calls.

(** ** The three parts of [forward] on an input of the supported shape *)

Ltac step_call R := rewrite (bind_run _ _ _ _ _ R); cbv beta.
Ltac step_assert S :=
  erewrite bind_run
    by (apply assert_run; unfold shape_from1; rewrite S; reflexivity);
  cbv beta.

Lemma stages_run w x N :
  built (self w) -> shape x = [N; 3; 256; 256] ->
  exists x1 x2 x3 x4 x5 w1 w2 w3 w4 w5,
    (call layer1 set_layer1 x w = (inr x1, w1) /\ shape x1 = [N; 64; 128; 128]) /\
    (call layer2 set_layer2 x1 w1 = (inr x2, w2) /\ shape x2 = [N; 128; 64; 64]) /\
    (call layer3 set_layer3 x2 w2 = (inr x3, w3) /\ shape x3 = [N; 256; 32; 32]) /\
    (call layer4 set_layer4 x3 w3 = (inr x4, w4) /\ shape x4 = [N; 512; 16; 16]) /\
    (call layer5 set_layer5 x4 w4 = (inr x5, w5) /\ shape x5 = [N; 512; 16; 16]) /\
    stages x w = (inr x5, w5) /\
    built (self w5) /\ stdout w5 = stdout w /\
    style_classes (self w5) = style_classes (self w) /\
    called w5 = called w ++ stage_classes /\
    graph x5 = graph x ++ stage_parameters.
Proof.
  intros B Hx.
  destruct (built_layers _ B) as (A1 & _).
  destruct (call_conv_leaky layer1 set_layer1 frames_call_layer1 x w
              _ _ _ _ _ _ _ _ _ _ N 256 256 B A1 Hx)
    as (x1 & w1 & R1 & B1 & O1 & K1 & C1 & S1 & G1); [lia | lia |].
  change (conv_out 256 4 2 1) with 128 in S1.
  destruct (built_layers _ B1) as (_ & A2 & _).
  destruct (call_conv_bn_leaky layer2 set_layer2 frames_call_layer2 x1 w1
              _ _ _ _ _ _ _ _ _ _ _ _ N 128 128 B1 A2 S1)
    as (x2 & w2 & R2 & B2 & O2 & K2 & C2 & S2 & G2);
    [lia | lia | change (conv_out 128 4 2 1) with 64; lia |].
  change (conv_out 128 4 2 1) with 64 in S2.
  destruct (built_layers _ B2) as (_ & _ & A3 & _).
  destruct (call_conv_bn_leaky layer3 set_layer3 frames_call_layer3 x2 w2
              _ _ _ _ _ _ _ _ _ _ _ _ N 64 64 B2 A3 S2)
    as (x3 & w3 & R3 & B3 & O3 & K3 & C3 & S3 & G3);
    [lia | lia | change (conv_out 64 4 2 1) with 32; lia |].
  change (conv_out 64 4 2 1) with 32 in S3.
  destruct (built_layers _ B3) as (_ & _ & _ & A4 & _).
  destruct (call_conv_bn_leaky layer4 set_layer4 frames_call_layer4 x3 w3
              _ _ _ _ _ _ _ _ _ _ _ _ N 32 32 B3 A4 S3)
    as (x4 & w4 & R4 & B4 & O4 & K4 & C4 & S4 & G4);
    [lia | lia | change (conv_out 32 4 2 1) with 16; lia |].
  change (conv_out 32 4 2 1) with 16 in S4.
  destruct (built_layers _ B4) as (_ & _ & _ & _ & A5 & _).
  destruct (call_conv_bn_leaky layer5 set_layer5 frames_call_layer5 x4 w4
              _ _ _ _ _ _ _ _ _ _ _ _ N 16 16 B4 A5 S4)
    as (x5 & w5 & R5 & B5 & O5 & K5 & C5 & S5 & G5);
    [lia | lia | change (conv_out 16 3 1 1) with 16; lia |].
  change (conv_out 16 3 1 1) with 16 in S5.
  exists x1, x2, x3, x4, x5, w1, w2, w3, w4, w5.
  repeat (split; [split; assumption|]).
  split.
  { unfold stages. step_assert Hx.
    step_call R1. step_assert S1. step_call R2. step_assert S2.
    step_call R3. step_assert S3. step_call R4. step_assert S4.
    step_call R5. step_assert S5. reflexivity. }
  split; [exact B5|].
  split; [congruence|].
  split; [congruence|].
  split.
  - rewrite C5, C4, C3, C2, C1. unfold stage_classes.
    now rewrite <- !app_assoc.
  - rewrite G5, G4, G3, G2, G1. unfold stage_parameters.
    now rewrite <- !app_assoc.
Qed.

Lemma Rsum_nat_ext (n : nat) (f g : Z -> R) :
  (forall i, 0 <= i < Z.of_nat n -> f i = g i) -> Rsum_nat n f = Rsum_nat n g.
Proof.
  induction n as [|n IH]; intros H; [reflexivity|].
  cbn [Rsum_nat]. rewrite IH, (H (Z.of_nat n)); [reflexivity | lia |].
  intros i Hi. apply H. lia.
Qed.

Lemma Rsum_ext (n : Z) (f g : Z -> R) :
  (forall i, 0 <= i < n -> f i = g i) -> Rsum n f = Rsum n g.
Proof.
  intros H. unfold Rsum. apply Rsum_nat_ext. intros i Hi. apply H. lia.
Qed.

Lemma pooled_run w x5 N :
  shape x5 = [N; 512; 16; 16] ->
  exists f wp,
    pooled x5 w = (inr f, wp) /\
    self wp = self w /\ stdout wp = stdout w /\
    called wp = called w ++ ["AvgPool2d"; "Flatten"] /\
    shape f = [N; 512] /\ graph f = graph x5 /\
    forall n c,
      item f [n; c] =
      (Rsum 16 (fun a => Rsum 16 (fun b => item x5 [n; c; a; b])) / 256)%R.
Proof.
  intros Hx.
  assert (Hp : AvgPool2d_forward 16 x5 =
               inr {| shape := [N; 512; 1; 1]; item := AvgPool2d_item 16 x5;
                      graph := graph x5 |}).
  { unfold AvgPool2d_forward. rewrite Hx. reflexivity. }
  unfold pooled, bind, apply_fresh.
  cbn [NNModule_forward fst]. rewrite Hp.
  cbn [Flatten_forward shape class_name self stdout called].
  do 2 eexists. split; [reflexivity|].
  cbn [self stdout called shape graph item].
  repeat split.
  - now rewrite <- app_assoc.
  - intros n c. cbn [unravel numel fold_right].
    change (1 * (1 * 1)) with 1. change (1 * 1) with 1.
    rewrite Z.div_1_r, Z.mod_1_r. change (0 / 1) with 0. change (0 mod 1) with 0.
    cbn [AvgPool2d_item]. change (16 * 16) with 256. reflexivity.
Qed.

Lemma heads_run w f N :
  built (self w) -> shape f = [N; 512] ->
  exists zp zs w6 w7,
    call probabilities set_probabilities f w = (inr (Sigmoid_forward zp), w6) /\
    call styles set_styles f w6 =
      (inr {| shape := [N; style_classes (self w)]; item := Softmax_item 0 zs;
              graph := graph zs |}, w7) /\
    heads f w =
      (inr (Sigmoid_forward zp,
            {| shape := [N; style_classes (self w)]; item := Softmax_item 0 zs;
               graph := graph zs |}), w7) /\
    shape zp = [N; 1] /\ shape zs = [N; style_classes (self w)] /\
    built (self w7) /\ stdout w7 = stdout w /\
    style_classes (self w7) = style_classes (self w) /\
    called w7 = called w ++ head_classes /\
    graph zp = graph f ++ ["probabilities.0.weight"; "probabilities.0.bias"] /\
    graph zs = graph f ++ ["styles.0.weight"; "styles.0.bias"].
Proof.
  intros B Hf.
  destruct (built_layers _ B) as (_ & _ & _ & _ & _ & A6 & _).
  destruct (call_linear_sigmoid probabilities set_probabilities
              frames_call_probabilities f w _ _ _ _ N B A6 Hf)
    as (zp & w6 & R6 & B6 & O6 & K6 & C6 & S6 & G6).
  destruct (built_layers _ B6) as (_ & _ & _ & _ & _ & _ & A7).
  destruct (call_linear_softmax styles set_styles frames_call_styles f w6
              _ _ _ _ N B6 A7 Hf)
    as (zs & w7 & R7 & B7 & O7 & K7 & C7 & S7 & G7).
  rewrite K6 in R7, S7.
  exists zp, zs, w6, w7.
  split; [exact R6|]. split; [exact R7|].
  split.
  { unfold heads. step_call R6.
    erewrite bind_run
      by (apply assert_run; unfold shape_from1; cbn [Sigmoid_forward shape];
          rewrite S6; reflexivity).
    cbv beta. step_call R7.
    erewrite bind_run by reflexivity. cbv beta.
    erewrite bind_run
      by (apply assert_run; unfold shape_from1; cbn [shape tl];
          rewrite K7, K6; apply Size_eqb_refl).
    reflexivity. }
  repeat split; try assumption; try congruence.
  rewrite C7, C6. unfold head_classes. now rewrite <- app_assoc.
Qed.

Lemma forward_run w x N :
  built (self w) -> shape x = [N; 3; 256; 256] ->
  exists x5 f zp zs w5 wp w',
    stages x w = (inr x5, w5) /\ shape x5 = [N; 512; 16; 16] /\
    pooled x5 w5 = (inr f, wp) /\ shape f = [N; 512] /\
    (forall n c,
       item f [n; c] =
       (Rsum 16 (fun a => Rsum 16 (fun b => item x5 [n; c; a; b])) / 256)%R) /\
    heads f wp =
      (inr (Sigmoid_forward zp,
            {| shape := [N; style_classes (self w)]; item := Softmax_item 0 zs;
               graph := graph zs |}), w') /\
    forward x w =
      (inr (Sigmoid_forward zp,
            {| shape := [N; style_classes (self w)]; item := Softmax_item 0 zs;
               graph := graph zs |}), w') /\
    shape zp = [N; 1] /\ shape zs = [N; style_classes (self w)] /\
    built (self w') /\ stdout w' = stdout w /\
    called w' =
      called w ++ stage_classes ++ ["AvgPool2d"; "Flatten"] ++ head_classes /\
    graph zp =
      graph x ++ stage_parameters
      ++ ["probabilities.0.weight"; "probabilities.0.bias"] /\
    graph zs = graph x ++ stage_parameters ++ ["styles.0.weight"; "styles.0.bias"].
Proof.
  intros B Hx.
  destruct (stages_run w x N B Hx)
    as (x1 & x2 & x3 & x4 & x5 & w1 & w2 & w3 & w4 & w5 &
        _ & _ & _ & _ & [_ S5] & R5 & B5 & O5 & K5 & C5 & G5).
  destruct (pooled_run w5 x5 N S5) as (f & wp & Rp & Ep & Op & Cp & Sp & Gp & Vp).
  rewrite <- Ep in B5.
  destruct (heads_run wp f N B5 Sp)
    as (zp & zs & w6 & w7 & _ & _ & Rh & Szp & Szs & B7 & O7 & K7 & C7 & Gzp & Gzs).
  rewrite Ep, K5 in Rh, Szs.
  exists x5, f, zp, zs, w5, wp, w7.
  split; [exact R5|]. split; [exact S5|]. split; [exact Rp|].
  split; [exact Sp|]. split; [exact Vp|]. split; [exact Rh|].
  split.
  { unfold forward. step_call R5. step_call Rp. exact Rh. }
  split; [exact Szp|]. split; [exact Szs|]. split; [exact B7|].
  split; [congruence|].
  split; [rewrite C7, Cp, C5; now rewrite <- !app_assoc|].
  split.
  - rewrite Gzp, Gp, G5. now rewrite <- app_assoc.
  - rewrite Gzs, Gp, G5. now rewrite <- app_assoc.
Qed.

(** ** The result of [forward] does not depend on the running statistics of
    a module in training mode *)

Lemma BatchNorm2d_forward_sim b0 b x :
  module_evolved (MBatchNorm2d b0) (MBatchNorm2d b) ->
  fst (BatchNorm2d_forward b x) = fst (BatchNorm2d_forward b0 x) /\
  module_evolved (MBatchNorm2d (snd (BatchNorm2d_forward b0 x)))
                 (MBatchNorm2d (snd (BatchNorm2d_forward b x))).
Proof.
  intros Hev. pose proof Hev as [(F1 & F2 & F3 & F4 & F5 & F6) E].
  destruct (training b0) eqn:T.
  - unfold BatchNorm2d_forward. rewrite F6, T, F1.
    destruct (shape x) as [|N [|C [|H [|W [|? ?]]]]]; cbn [fst snd];
      try (split; [reflexivity | exact Hev]).
    destruct (N * H * W =? 1); [|destruct (negb (C =? num_features b0))];
      cbn [fst snd];
      (split; [|split; [repeat split; cbn; auto | cbn; congruence]]);
      try reflexivity.
    unfold normalized. rewrite F2, F4, F5. reflexivity.
  - rewrite (E eq_refl). split; [reflexivity | apply module_evolved_refl].
Qed.

Lemma NNModule_forward_sim m0 m x :
  module_evolved m0 m ->
  fst (NNModule_forward m x) = fst (NNModule_forward m0 x) /\
  module_evolved (snd (NNModule_forward m0 x)) (snd (NNModule_forward m x)).
Proof.
  intros H.
  destruct m0 as [c0|b0|s0|k0| |l0| |d0];
    try (simpl in H; subst m; split; [reflexivity | apply module_evolved_refl]).
  destruct m as [c|b|s|k| |l| |d]; try discriminate H.
  destruct (BatchNorm2d_forward_sim b0 b x H) as [R E].
  cbn [NNModule_forward].
  destruct (BatchNorm2d_forward b0 x), (BatchNorm2d_forward b x).
  cbn [fst snd] in *. split; assumption.
Qed.

Lemma Sequential_forward_sim ms0 ms x :
  Forall2 module_evolved ms0 ms ->
  fst (fst (Sequential_forward ms x)) = fst (fst (Sequential_forward ms0 x)) /\
  snd (Sequential_forward ms x) = snd (Sequential_forward ms0 x) /\
  Forall2 module_evolved (snd (fst (Sequential_forward ms0 x)))
                         (snd (fst (Sequential_forward ms x))).
Proof.
  intros H; revert x; induction H as [|m0 m ms0 ms Hm Hms IH]; intros x.
  - cbn. repeat split; constructor.
  - cbn [Sequential_forward].
    destruct (NNModule_forward_sim m0 m x Hm) as [R E].
    assert (Hc : class_name m = class_name m0).
    { destruct m0; simpl in Hm; try (subst; reflexivity).
      destruct m; try discriminate Hm; reflexivity. }
    destruct (NNModule_forward m0 x) as [[e0|y0] m0'],
             (NNModule_forward m x) as [[e|y] m'];
      cbn [fst snd] in *; try discriminate R.
    + injection R as ->. rewrite Hc. repeat split. constructor; assumption.
    + injection R as ->. specialize (IH y0).
      destruct (Sequential_forward ms0 y0) as [[r0 ms0'] cs0],
               (Sequential_forward ms y0) as [[r ms'] cs].
      cbn [fst snd] in *. destruct IH as (-> & -> & IH).
      rewrite Hc. repeat split. constructor; assumption.
Qed.

Lemma respects_ret {A} (a : A) : respects (ret a).
Proof. intros w0 w E; split; [reflexivity | exact E]. Qed.

Lemma respects_raise {A} (e : Exception) : respects (@raise A e).
Proof. intros w0 w E; split; [reflexivity | exact E]. Qed.

Lemma respects_assert (c : bool) (msg : string) : respects (assert_ c msg).
Proof. destruct c; [apply respects_ret | apply respects_raise]. Qed.

Lemma respects_self_style_classes : respects self_style_classes.
Proof.
  intros w0 w E; split; [|exact E].
  unfold self_style_classes; cbn [fst]. f_equal. apply E.
Qed.

Lemma respects_apply_fresh (m : NNModule) (x : Tensor) : respects (apply_fresh m x).
Proof. intros w0 w E; split; [reflexivity | exact E]. Qed.

Lemma respects_bind {A B} (c : M A) (k : A -> M B) :
  respects c -> (forall a, respects (k a)) -> respects (bind c k).
Proof.
  intros Hc Hk w0 w E. unfold bind.
  destruct (Hc w0 w E) as [R E1].
  destruct (c w0) as [[e0|a0] w0'], (c w) as [[e|a] w'];
    cbn [fst snd] in *; try discriminate R.
  - injection R as ->. split; [reflexivity | assumption].
  - injection R as ->. apply Hk. exact E1.
Qed.

Ltac respects_call :=
  intros w0 w [K L]; unfold call;
  unfold layers in L;
  repeat match goal with
  | H : Forall2 _ (_ :: _) (_ :: _) |- _ => inversion H; clear H; subst
  end;
  match goal with
  | |- context [Sequential_forward ?ms ?x] =>
      match goal with
      | H : Forall2 module_evolved ?ms0 ms |- _ =>
          destruct (Sequential_forward_sim ms0 ms x H) as (R & C & E);
          destruct (Sequential_forward ms0 x) as [[r0 ms0'] cs0];
          destruct (Sequential_forward ms x) as [[r ms'] cs]
      end
  end;
  cbn [fst snd self] in *; split; [assumption|];
  split; [exact K|];
  unfold layers; cbn;
  repeat (constructor; try assumption).

Lemma respects_call_layer1 x : respects (call layer1 set_layer1 x).
Proof. respects_call. Qed.
Lemma respects_call_layer2 x : respects (call layer2 set_layer2 x).
Proof. respects_call. Qed.
Lemma respects_call_layer3 x : respects (call layer3 set_layer3 x).
Proof. respects_call. Qed.
Lemma respects_call_layer4 x : respects (call layer4 set_layer4 x).
Proof. respects_call. Qed.
Lemma respects_call_layer5 x : respects (call layer5 set_layer5 x).
Proof. respects_call. Qed.
Lemma respects_call_probabilities x :
  respects (call probabilities set_probabilities x).
Proof. respects_call. Qed.
Lemma respects_call_styles x : respects (call styles set_styles x).
Proof. respects_call. Qed.

Create HintDb respects.
#[local] Hint Resolve respects_ret respects_raise respects_assert
  respects_self_style_classes respects_apply_fresh
  respects_call_layer1 respects_call_layer2 respects_call_layer3
  respects_call_layer4 respects_call_layer5 respects_call_probabilities
  respects_call_styles : respects.

Ltac respects_steps :=
  repeat first [ apply respects_bind; [|intros ?] | solve [auto with respects] ].

Lemma respects_forward x : respects (forward x).
Proof. unfold forward, stages, pooled, heads. respects_steps. Qed.

(** ** Sigmoid and softmax over the reals *)

Lemma sigmoid_range (v : R) : (0 < sigmoid v < 1)%R.
Proof.
  unfold sigmoid. pose proof (exp_pos (- v)) as He. split.
  - apply Rdiv_lt_0_compat; lra.
  - apply Rmult_lt_reg_r with (1 + exp (- v))%R; [lra|].
    unfold Rdiv. rewrite Rmult_assoc, Rinv_l; lra.
Qed.

Lemma Rsum_nat_div (n : nat) (f : Z -> R) (d : R) :
  Rsum_nat n (fun i => (f i / d)%R) = (Rsum_nat n f / d)%R.
Proof.
  induction n as [|n IH]; cbn [Rsum_nat]; [unfold Rdiv; ring|].
  rewrite IH. unfold Rdiv. ring.
Qed.

Lemma Rsum_nat_nonneg (n : nat) (f : Z -> R) :
  (forall i, (0 < f i)%R) -> (0 <= Rsum_nat n f)%R.
Proof.
  intros H. induction n as [|n IH]; cbn [Rsum_nat]; [lra|].
  specialize (H (Z.of_nat n)). lra.
Qed.

Lemma Rsum_pos (n : Z) (f : Z -> R) :
  1 <= n -> (forall i, (0 < f i)%R) -> (0 < Rsum n f)%R.
Proof.
  intros Hn H. unfold Rsum.
  destruct (Z.to_nat n) as [|k] eqn:E; [lia|].
  cbn [Rsum_nat]. pose proof (Rsum_nat_nonneg k f H). specialize (H (Z.of_nat k)). lra.
Qed.

Lemma Rsum_ones (n : Z) : 0 <= n -> Rsum n (fun _ => 1%R) = IZR n.
Proof.
  intros Hn. unfold Rsum. rewrite <- (Z2Nat.id n Hn) at 2.
  induction (Z.to_nat n) as [|k IH]; cbn [Rsum_nat]; [reflexivity|].
  rewrite IH, Nat2Z.inj_succ, succ_IZR. reflexivity.
Qed.

(** The softmax over dimension 0 of an [N x k] tensor divides by the sum
    over the batch. *)
Lemma softmax0_item (z : Tensor) (N k n c : Z) :
  shape z = [N; k] ->
  Softmax_item 0 z [n; c] =
  (exp (item z [n; c]) / Rsum N (fun m => exp (item z [m; c])))%R.
Proof. intros Hz. unfold Softmax_item. rewrite Hz. reflexivity. Qed.

Lemma softmax0_nonneg (z : Tensor) (N k n c : Z) :
  shape z = [N; k] -> 1 <= N -> (0 < Softmax_item 0 z [n; c])%R.
Proof.
  intros Hz HN. rewrite (softmax0_item z N k n c Hz).
  apply Rdiv_lt_0_compat; [apply exp_pos|].
  apply Rsum_pos; [exact HN | intros; apply exp_pos].
Qed.

Lemma softmax0_batch_sum (z : Tensor) (N k c : Z) :
  shape z = [N; k] -> 1 <= N ->
  Rsum N (fun n => Softmax_item 0 z [n; c]) = 1%R.
Proof.
  intros Hz HN.
  rewrite (Rsum_ext N _ (fun n =>
             (exp (item z [n; c]) / Rsum N (fun m => exp (item z [m; c])))%R))
    by (intros; apply (softmax0_item z N k); exact Hz).
  unfold Rsum at 1. rewrite Rsum_nat_div. fold (Rsum N (fun n => exp (item z [n; c]))).
  assert (0 < Rsum N (fun n => exp (item z [n; c])))%R
    by (apply Rsum_pos; [exact HN | intros; apply exp_pos]).
  unfold Rdiv. apply Rinv_r. lra.
Qed.

(** With a single example the batch sum is the entry itself. *)
Lemma softmax0_single (z : Tensor) (k c : Z) :
  shape z = [1; k] -> Softmax_item 0 z [0; c] = 1%R.
Proof.
  intros Hz. rewrite (softmax0_item z 1 k 0 c Hz).
  unfold Rsum. change (Z.to_nat 1) with 1%nat. cbn [Rsum_nat Z.of_nat].
  pose proof (exp_pos (item z [0; c])).
  rewrite Rplus_0_l. unfold Rdiv. apply Rinv_r. lra.
Qed.

(** ** The claims about [forward] *)

(** C1: on a batch of shape (N, 3, 256, 256) with N >= 1, [forward] returns
    a pair: the probabilities have shape (N, 1) and every one of them lies
    in [0, 1]; the style output has shape (N, style_classes). *)
Theorem forward_shapes_and_probability_range w x N :
  built (self w) -> 1 <= N -> shape x = [N; 3; 256; 256] ->
  exists p s w',
    forward x w = (inr (p, s), w') /\
    shape p = [N; 1] /\ shape s = [N; style_classes (self w)] /\
    forall idx, (0 <= item p idx <= 1)%R.
Proof.
  intros B _ Hx.
  destruct (forward_run w x N B Hx)
    as (x5 & f & zp & zs & w5 & wp & w' & _ & _ & _ & _ & _ & _ & R & Sp & _).
  do 3 eexists. split; [exact R|].
  cbn [Sigmoid_forward shape item]. repeat split; try assumption;
    pose proof (sigmoid_range (item zp idx)); lra.
Qed.

Lemma forward_shapes_and_probability_range_witness :
  exists p s w',
    forward (example_image 2) (example_world 3) = (inr (p, s), w') /\
    shape p = [2; 1] /\ shape s = [2; 3] /\
    forall idx, (0 <= item p idx <= 1)%R.
Proof.
  apply (forward_shapes_and_probability_range (example_world 3) (example_image 2) 2).
  - reflexivity.
  - lia.
  - reflexivity.
Defined.

(** C2, as the code has it: the style head normalises along the batch axis:
    the style output is the exponential of the linear head's output divided
    by its sum over the examples of the batch, so for a batch that is not
    empty (N >= 1) and every class the N entries are non-negative and sum to
    1 across the batch. *)
Theorem styles_normalised_over_batch w x N :
  built (self w) -> 1 <= N -> shape x = [N; 3; 256; 256] ->
  exists p s z w',
    forward x w = (inr (p, s), w') /\
    shape z = [N; style_classes (self w)] /\
    (forall n c,
       item s [n; c] =
       (exp (item z [n; c]) / Rsum N (fun m => exp (item z [m; c])))%R) /\
    forall c, 0 <= c < style_classes (self w) ->
      (forall n, 0 <= n < N -> (0 <= item s [n; c])%R) /\
      Rsum N (fun n => item s [n; c]) = 1%R.
Proof.
  intros B HN Hx.
  destruct (forward_run w x N B Hx)
    as (x5 & f & zp & zs & w5 & wp & w' & _ & _ & _ & _ & _ & _ & R & _ & Sz & _).
  do 4 eexists. split; [exact R|]. split; [exact Sz|].
  cbn [item]. split.
  - intros n c. apply (softmax0_item zs N _ n c Sz).
  - intros c _. split.
    + intros n _. apply Rlt_le. apply (softmax0_nonneg zs N _ n c Sz HN).
    + apply (softmax0_batch_sum zs N _ c Sz HN).
Qed.

Lemma styles_normalised_over_batch_witness :
  exists p s z w',
    forward (example_image 2) (example_world 3) = (inr (p, s), w') /\
    shape z = [2; 3] /\
    (forall n c,
       item s [n; c] =
       (exp (item z [n; c]) / Rsum 2 (fun m => exp (item z [m; c])))%R) /\
    forall c, 0 <= c < 3 ->
      (forall n, 0 <= n < 2 -> (0 <= item s [n; c])%R) /\
      Rsum 2 (fun n => item s [n; c]) = 1%R.
Proof.
  apply (styles_normalised_over_batch (example_world 3) (example_image 2) 2).
  - reflexivity.
  - lia.
  - reflexivity.
Defined.

(** C2 as stated fails on the empty batch, which [forward] accepts: the
    style output then has shape (0, style_classes) and the sum over the
    batch of the entries of a class is 0, not 1. *)
Lemma empty_batch_styles_sum_to_zero :
  exists p s w',
    forward (example_image 0) (example_world 3) = (inr (p, s), w') /\
    shape s = [0; 3] /\
    Rsum 0 (fun n => item s [n; 0]) = 0%R /\
    Rsum 0 (fun n => item s [n; 0]) <> 1%R.
Proof.
  destruct (forward_run (example_world 3) (example_image 0) 0)
    as (x5 & f & zp & zs & w5 & wp & w' & _ & _ & _ & _ & _ & _ & R & _);
    try reflexivity.
  do 3 eexists. split; [exact R|]. split; [reflexivity|].
  unfold Rsum. cbn [Z.to_nat Rsum_nat]. split; [reflexivity | lra].
Qed.

Lemma forward_input_assert w x :
  shape_from1 x <> [3; 256; 256] ->
  forward x w = (inl (AssertionError input_message), w).
Proof.
  intros H. unfold forward, stages.
  rewrite (Size_eqb_neq _ _ H). reflexivity.
Qed.

(** C3: an input whose per-example shape is not (3, 256, 256) makes
    [forward] fail at once with the assertion on the input shape: no module
    has been called, and [self] is as it was.  Shapes (N, 4, 256, 256) and
    (N, 3, 128, 128) are instances. *)
Theorem forward_rejects_other_shapes w x :
  shape_from1 x <> [3; 256; 256] ->
  forward x w = (inl (AssertionError input_message), w) /\
  called (snd (forward x w)) = called w /\
  self (snd (forward x w)) = self w.
Proof.
  intros H. rewrite (forward_input_assert w x H). repeat split.
Qed.

Lemma forward_rejects_other_shapes_witness :
  (forward (example_tensor [2; 4; 256; 256]) (example_world 3) =
     (inl (AssertionError input_message), example_world 3) /\
   called (snd (forward (example_tensor [2; 4; 256; 256]) (example_world 3))) = [] /\
   self (snd (forward (example_tensor [2; 4; 256; 256]) (example_world 3))) =
     example_D 3) /\
  (forward (example_tensor [2; 3; 128; 128]) (example_world 3) =
     (inl (AssertionError input_message), example_world 3) /\
   called (snd (forward (example_tensor [2; 3; 128; 128]) (example_world 3))) = [] /\
   self (snd (forward (example_tensor [2; 3; 128; 128]) (example_world 3))) =
     example_D 3).
Proof.
  split.
  - apply (forward_rejects_other_shapes (example_world 3)
             (example_tensor [2; 4; 256; 256])).
    discriminate.
  - apply (forward_rejects_other_shapes (example_world 3)
             (example_tensor [2; 3; 128; 128])).
    discriminate.
Defined.

(** C4: on a batch of the supported shape the five stages, called in order,
    return feature maps of shapes (N,64,128,128), (N,128,64,64),
    (N,256,32,32), (N,512,16,16), (N,512,16,16), whatever the weights; the
    convolution of stage 5 has a 3x3 kernel, stride 1 and padding 1, which
    maps an extent of 16 to 16 (the 4x4 stride-2 convolution of the other
    stages would map it to 8). *)
Theorem stage_shapes w x N :
  built (self w) -> shape x = [N; 3; 256; 256] ->
  (exists x1 x2 x3 x4 x5 w1 w2 w3 w4 w5,
     (call layer1 set_layer1 x w = (inr x1, w1) /\ shape x1 = [N; 64; 128; 128]) /\
     (call layer2 set_layer2 x1 w1 = (inr x2, w2) /\ shape x2 = [N; 128; 64; 64]) /\
     (call layer3 set_layer3 x2 w2 = (inr x3, w3) /\ shape x3 = [N; 256; 32; 32]) /\
     (call layer4 set_layer4 x3 w3 = (inr x4, w4) /\ shape x4 = [N; 512; 16; 16]) /\
     (call layer5 set_layer5 x4 w4 = (inr x5, w5) /\ shape x5 = [N; 512; 16; 16]) /\
     stages x w = (inr x5, w5) /\
     called w5 = called w ++ stage_classes) /\
  (exists c5 rest,
     layer5 (self w) = MConv2d c5 :: rest /\
     kernel_size c5 = (3, 3) /\ stride c5 = (1, 1) /\ padding c5 = (1, 1)) /\
  conv_out 16 3 1 1 = 16 /\ conv_out 16 4 2 1 = 8.
Proof.
  intros B Hx. split; [|split; [|split; reflexivity]].
  - destruct (stages_run w x N B Hx)
      as (x1 & x2 & x3 & x4 & x5 & w1 & w2 & w3 & w4 & w5 &
          H1 & H2 & H3 & H4 & H5 & R & _ & _ & _ & C & _).
    exists x1, x2, x3, x4, x5, w1, w2, w3, w4, w5. repeat split; tauto.
  - destruct (built_layers _ B) as (_ & _ & _ & _ & A5 & _).
    destruct (layer5 (self w)) as [|[c| | | | | | |] rest]; try discriminate A5.
    cbn [map arch_of conv_bn] in A5. injection A5 as _ _ Hk Hs Hp _.
    exists c, rest. repeat split; assumption.
Qed.

Lemma stage_shapes_witness :
  (exists x1 x2 x3 x4 x5 w1 w2 w3 w4 w5,
     (call layer1 set_layer1 (example_image 2) (example_world 3) = (inr x1, w1) /\
      shape x1 = [2; 64; 128; 128]) /\
     (call layer2 set_layer2 x1 w1 = (inr x2, w2) /\ shape x2 = [2; 128; 64; 64]) /\
     (call layer3 set_layer3 x2 w2 = (inr x3, w3) /\ shape x3 = [2; 256; 32; 32]) /\
     (call layer4 set_layer4 x3 w3 = (inr x4, w4) /\ shape x4 = [2; 512; 16; 16]) /\
     (call layer5 set_layer5 x4 w4 = (inr x5, w5) /\ shape x5 = [2; 512; 16; 16]) /\
     stages (example_image 2) (example_world 3) = (inr x5, w5) /\
     called w5 = [] ++ stage_classes) /\
  (exists c5 rest,
     layer5 (example_D 3) = MConv2d c5 :: rest /\
     kernel_size c5 = (3, 3) /\ stride c5 = (1, 1) /\ padding c5 = (1, 1)) /\
  conv_out 16 3 1 1 = 16 /\ conv_out 16 4 2 1 = 8.
Proof.
  apply (stage_shapes (example_world 3) (example_image 2) 2); reflexivity.
Defined.

(** C8: the vector fed to both heads is, per example, the 512 channel
    averages of the last 512x16x16 feature map over its whole 16x16 extent,
    flattened to shape (N, 512). *)
Theorem pooled_is_global_average w x N :
  built (self w) -> shape x = [N; 3; 256; 256] ->
  exists x5 f p s w5 wp w6 w',
    stages x w = (inr x5, w5) /\ shape x5 = [N; 512; 16; 16] /\
    pooled x5 w5 = (inr f, wp) /\ shape f = [N; 512] /\
    (forall n c,
       item f [n; c] =
       (Rsum 16 (fun a => Rsum 16 (fun b => item x5 [n; c; a; b])) / 256)%R) /\
    call probabilities set_probabilities f wp = (inr p, w6) /\
    call styles set_styles f w6 = (inr s, w') /\
    forward x w = (inr (p, s), w').
Proof.
  intros B Hx.
  destruct (stages_run w x N B Hx)
    as (x1 & x2 & x3 & x4 & x5 & w1 & w2 & w3 & w4 & w5 &
        _ & _ & _ & _ & [_ S5] & R5 & B5 & O5 & K5 & C5 & G5).
  destruct (pooled_run w5 x5 N S5) as (f & wp & Rp & Ep & Op & Cp & Sp & Gp & Vp).
  rewrite <- Ep in B5.
  destruct (heads_run wp f N B5 Sp)
    as (zp & zs & w6 & w7 & R6 & R7 & Rh & _).
  do 8 eexists.
  split; [exact R5|]. split; [exact S5|]. split; [exact Rp|].
  split; [exact Sp|]. split; [exact Vp|]. split; [exact R6|].
  split; [exact R7|].
  unfold forward. step_call R5. step_call Rp. exact Rh.
Qed.

Lemma pooled_is_global_average_witness :
  exists x5 f p s w5 wp w6 w',
    stages (example_image 2) (example_world 3) = (inr x5, w5) /\
    shape x5 = [2; 512; 16; 16] /\
    pooled x5 w5 = (inr f, wp) /\ shape f = [2; 512] /\
    (forall n c,
       item f [n; c] =
       (Rsum 16 (fun a => Rsum 16 (fun b => item x5 [n; c; a; b])) / 256)%R) /\
    call probabilities set_probabilities f wp = (inr p, w6) /\
    call styles set_styles f w6 = (inr s, w') /\
    forward (example_image 2) (example_world 3) = (inr (p, s), w').
Proof.
  apply (pooled_is_global_average (example_world 3) (example_image 2) 2);
    reflexivity.
Defined.

(** C10: on a built discriminator the assertion on the input shape decides
    the outcome of [forward]: when it passes, [forward] returns (every later
    assertion passes too); when it fails, [forward] raises that assertion. *)
Theorem input_check_is_the_only_failure w x :
  built (self w) ->
  if Size_eqb (shape_from1 x) [3; 256; 256]
  then exists r w', forward x w = (inr r, w')
  else forward x w = (inl (AssertionError input_message), w).
Proof.
  intros B. destruct (Size_eqb (shape_from1 x) [3; 256; 256]) eqn:E.
  - apply Size_eqb_eq in E. unfold shape_from1 in E.
    destruct (shape x) as [|N rest] eqn:Hx; [discriminate E|].
    cbn [tl] in E. subst rest.
    destruct (forward_run w x N B Hx)
      as (x5 & f & zp & zs & w5 & wp & w' & _ & _ & _ & _ & _ & _ & R & _).
    do 2 eexists. exact R.
  - apply forward_input_assert. intros H. apply Size_eqb_eq in H. congruence.
Qed.

Lemma input_check_is_the_only_failure_witness :
  (exists r w', forward (example_image 2) (example_world 3) = (inr r, w')) /\
  forward (example_tensor [2; 3; 128; 128]) (example_world 3) =
    (inl (AssertionError input_message), example_world 3).
Proof.
  split.
  - apply (input_check_is_the_only_failure (example_world 3) (example_image 2)).
    reflexivity.
  - apply (input_check_is_the_only_failure (example_world 3)
             (example_tensor [2; 3; 128; 128])).
    reflexivity.
Defined.

(** ** A batch of one example *)

Lemma single_example_run w x :
  built (self w) -> shape x = [1; 3; 256; 256] ->
  exists p s w',
    forward x w = (inr (p, s), w') /\
    shape s = [1; style_classes (self w)] /\
    forall c, item s [0; c] = 1%R.
Proof.
  intros B Hx.
  destruct (forward_run w x 1 B Hx)
    as (x5 & f & zp & zs & w5 & wp & w' & _ & _ & _ & _ & _ & _ & R & _ & Sz & _).
  do 3 eexists. split; [exact R|]. split; [reflexivity|].
  intros c. cbn [item]. apply (softmax0_single zs _ c Sz).
Qed.

Lemma ones_categorical (k : Z) (row : Z -> R) :
  (forall c, row c = 1%R) -> (categorical k row <-> k = 1).
Proof.
  intros Hrow. unfold categorical.
  rewrite (Rsum_ext k row (fun _ => 1%R)) by (intros; apply Hrow).
  split.
  - intros [_ Hs]. destruct (Z_lt_le_dec k 0) as [Hk|Hk].
    + unfold Rsum in Hs. destruct k; try lia. cbn in Hs. lra.
    + rewrite (Rsum_ones k Hk) in Hs. now apply eq_IZR in Hs.
  - intros ->. split; [intros c _; rewrite Hrow; lra|].
    now rewrite Rsum_ones by lia.
Qed.

(** C9, as the code has it: with a batch of one example every entry of the
    style output is 1, whatever the image and the weights, since the softmax
    runs over the singleton batch axis; the row of that example is a
    categorical distribution over the classes exactly when there is one
    class. *)
Theorem single_example_styles_are_ones w x :
  built (self w) -> shape x = [1; 3; 256; 256] ->
  exists p s w',
    forward x w = (inr (p, s), w') /\
    shape s = [1; style_classes (self w)] /\
    (forall c, item s [0; c] = 1%R) /\
    (categorical (style_classes (self w)) (fun c => item s [0; c]) <->
     style_classes (self w) = 1).
Proof.
  intros B Hx.
  destruct (single_example_run w x B Hx) as (p & s & w' & R & S & V).
  exists p, s, w'. repeat split; try assumption;
    now apply (ones_categorical _ (fun c => item s [0; c])).
Qed.

Lemma single_example_styles_are_ones_witness :
  exists p s w',
    forward (example_image 1) (example_world 3) = (inr (p, s), w') /\
    shape s = [1; 3] /\
    (forall c, item s [0; c] = 1%R) /\
    (categorical 3 (fun c => item s [0; c]) <-> 3 = 1).
Proof.
  apply (single_example_styles_are_ones (example_world 3) (example_image 1));
    reflexivity.
Defined.

(** C9 as stated fails with one style class: the single row [1] is a
    categorical distribution. *)
Lemma single_class_single_example_is_categorical :
  exists p s w',
    forward (example_image 1) (example_world 1) = (inr (p, s), w') /\
    shape s = [1; 1] /\
    categorical 1 (fun c => item s [0; c]).
Proof.
  destruct (single_example_run (example_world 1) (example_image 1))
    as (p & s & w' & R & S & V); try reflexivity.
  exists p, s, w'. split; [exact R|]. split; [exact S|].
  now apply (ones_categorical 1 (fun c => item s [0; c])).
Qed.

(** ** Construction *)

Lemma allocate_ok limit s :
  forallb (fun d => 0 <=? d) s = true ->
  itemsize * numel s < int64_bound -> itemsize * numel s <= limit ->
  allocate limit s = inr tt.
Proof.
  intros H1 H2 H3. unfold allocate. rewrite H1. cbn [negb].
  apply Z.leb_gt in H2. rewrite H2.
  apply Z.ltb_ge in H3. now rewrite H3.
Qed.

Lemma allocate_inv limit s u :
  allocate limit s = inr u ->
  forallb (fun d => 0 <=? d) s = true /\
  itemsize * numel s < int64_bound /\ itemsize * numel s <= limit.
Proof.
  unfold allocate.
  destruct (forallb (fun d => 0 <=? d) s); cbn [negb]; [|discriminate].
  destruct (int64_bound <=? itemsize * numel s) eqn:E1; [discriminate|].
  destruct (limit <? itemsize * numel s) eqn:E2; [discriminate|].
  intros _. apply Z.leb_gt in E1. apply Z.ltb_ge in E2. auto.
Qed.

(** Every allocation of a construction that succeeded has succeeded. *)
Ltac init_steps H :=
  unfold __init__, Conv2d_new, BatchNorm2d_new, Linear_new, Param_new,
    Buffer_new in H;
  repeat match type of H with
  | context [allocate ?l ?s] =>
      let E := fresh "Ealloc" in
      destruct (allocate l s) as [?|[]] eqn:E; cbn [bindR] in H;
      [discriminate H|]
  end;
  injection H as H.

Ltac alloc_side Hk :=
  first [ cbn [forallb]; rewrite ?Hk; reflexivity
        | unfold itemsize, int64_bound; cbn [numel fold_right fst snd]; lia ].

Lemma init_ok limit slope k init :
  9437184 <= limit -> 0 <= k -> 2048 * k <= limit -> 2048 * k < int64_bound ->
  exists d,
    __init__ limit slope k init = inr d /\ style_classes d = k /\ built d.
Proof.
  intros Hl Hk Hw Ho. pose proof Ho as Ho'. unfold int64_bound in Ho'.
  apply Z.leb_le in Hk.
  unfold __init__, Conv2d_new, BatchNorm2d_new, Linear_new, Param_new, Buffer_new.
  repeat (rewrite allocate_ok by alloc_side Hk).
  cbn [bindR]. eexists. split; [reflexivity|]. split; reflexivity.
Qed.

Lemma init_inv limit slope k init d :
  __init__ limit slope k init = inr d ->
  0 <= k /\ 2048 * k <= limit /\ 2048 * k < int64_bound /\ 9437184 <= limit /\
  style_classes d = k /\ built d.
Proof.
  intros H. init_steps H. subst d.
  match goal with
  | E : allocate _ [k; 512] = inr tt |- _ =>
      apply allocate_inv in E as (F1 & F2 & F3)
  end.
  match goal with
  | E : allocate _ [512; 512; _; _] = inr tt |- _ =>
      apply allocate_inv in E as (_ & _ & G3)
  end.
  cbn [forallb] in F1. apply andb_true_iff in F1 as [F1 _].
  apply Z.leb_le in F1.
  unfold itemsize in *. cbn [numel fold_right fst snd] in *.
  repeat split; try lia; reflexivity.
Qed.

Lemma init_built limit slope k init d :
  __init__ limit slope k init = inr d -> 0 <= k /\ style_classes d = k /\ built d.
Proof. intros H. apply init_inv in H. tauto. Qed.

Lemma init_fails limit slope k init :
  k < 0 \/ limit < 2048 * k \/ int64_bound <= 2048 * k ->
  exists e, __init__ limit slope k init = inl e.
Proof.
  intros Hk. destruct (__init__ limit slope k init) as [e|d] eqn:H; [eauto|].
  apply init_inv in H. lia.
Qed.

(** C5, as the code has it: [__init__] checks nothing about
    [style_classes] itself.  On a machine where the fixed layers can be
    allocated, construction fails when [style_classes] is negative and when
    the weight of the style head ([style_classes] x 512 floats of 4 bytes)
    is more than the allocator provides or than a 64-bit size holds; for
    every other [style_classes], zero included, it succeeds, and then the
    last dimension of the style output is [style_classes]. *)
Theorem init_fails_only_on_allocation limit slope k init :
  9437184 <= limit ->
  (0 <= k -> 2048 * k <= limit -> 2048 * k < int64_bound ->
   exists d,
     __init__ limit slope k init = inr d /\ style_classes d = k /\
     forall w x N, self w = d -> shape x = [N; 3; 256; 256] ->
       exists p s w',
         forward x w = (inr (p, s), w') /\ shape s = [N; k] /\
         last (shape s) 0 = k) /\
  (k < 0 \/ limit < 2048 * k \/ int64_bound <= 2048 * k ->
   exists e, __init__ limit slope k init = inl e).
Proof.
  intros Hl. split.
  - intros Hk Hw Ho.
    destruct (init_ok limit slope k init Hl Hk Hw Ho) as (d & R & S & B).
    exists d. split; [exact R|]. split; [exact S|].
    intros w x N Hd Hx. rewrite <- Hd in B, S.
    destruct (forward_run w x N B Hx)
      as (x5 & f & zp & zs & w5 & wp & w' & _ & _ & _ & _ & _ & _ & Rf & _).
    rewrite S in Rf.
    do 3 eexists. split; [exact Rf|]. split; reflexivity.
  - apply init_fails.
Qed.

Lemma init_fails_only_on_allocation_witness :
  (exists d,
     __init__ example_limit (1 / 5) 3 zero_init = inr d /\ style_classes d = 3 /\
     forall w x N, self w = d -> shape x = [N; 3; 256; 256] ->
       exists p s w',
         forward x w = (inr (p, s), w') /\ shape s = [N; 3] /\
         last (shape s) 0 = 3) /\
  (exists e, __init__ example_limit (1 / 5) (-1) zero_init = inl e) /\
  (exists e, __init__ example_limit (1 / 5) 4611686018427387904 zero_init = inl e).
Proof.
  split; [|split].
  - apply (init_fails_only_on_allocation example_limit (1 / 5) 3 zero_init);
      unfold example_limit, int64_bound; lia.
  - apply (init_fails_only_on_allocation example_limit (1 / 5) (-1) zero_init);
      unfold example_limit, int64_bound; lia.
  - apply (init_fails_only_on_allocation example_limit (1 / 5)
             4611686018427387904 zero_init);
      unfold example_limit, int64_bound; lia.
Defined.

(** ** What [forward] changes *)

(** C6, as the code has it: [forward] never changes a parameter, a gradient
    or a hyper-parameter, and prints nothing; all it may change in [self] is
    the running mean, the running variance and the batch counter of the
    batch-normalisation modules that are in training mode, so in eval mode
    [self] is left as it was; and a second [forward] on the same input
    returns what the first one returned. *)
Theorem forward_changes_only_running_statistics w x :
  all_parameters (self (snd (forward x w))) = all_parameters (self w) /\
  evolved (self w) (self (snd (forward x w))) /\
  stdout (snd (forward x w)) = stdout w /\
  (eval_mode (self w) -> self (snd (forward x w)) = self w) /\
  fst (forward x (snd (forward x w))) = fst (forward x w).
Proof.
  destruct (frames_forward x w) as [E O].
  split; [now apply evolved_parameters|].
  split; [exact E|]. split; [exact O|].
  split; [now apply evolved_eval|].
  apply (respects_forward x w (snd (forward x w)) E).
Qed.

(** C6 as stated fails on a freshly built discriminator (training mode):
    [forward] succeeds and leaves the batch counter of stage 2 at 1 instead
    of 0, so [self] is not what it was. *)
Lemma forward_updates_running_statistics :
  exists r w',
    forward (example_image 2) (example_world 3) = (inr r, w') /\
    layer2_batches (self (example_world 3)) = Some 0 /\
    layer2_batches (self w') = Some 1 /\
    self w' <> self (example_world 3).
Proof.
  destruct (forward_run (example_world 3) (example_image 2) 2)
    as (x5 & f & zp & zs & w5 & wp & w' & _ & _ & _ & _ & _ & _ & R & _);
    try reflexivity.
  assert (H1 : layer2_batches (self w') = Some 1).
  { replace w' with (snd (forward (example_image 2) (example_world 3)))
      by (now rewrite R).
    vm_compute. reflexivity. }
  do 2 eexists. split; [exact R|]. split; [reflexivity|]. split; [exact H1|].
  intros E. rewrite E in H1. discriminate H1.
Qed.

(** ** [display_gradients] *)

Lemma printed_nil w : printed w [] = w.
Proof. destruct w; unfold printed; cbn. now rewrite app_nil_r. Qed.

Lemma printed_printed w a b : printed (printed w a) b = printed w (a ++ b).
Proof. unfold printed; cbn. now rewrite app_assoc. Qed.

Lemma inner_loop_run (i : Z) (ps : list (Z * Param)) (w : World) :
  for_each ps (fun '(j, module) =>
    (print (GradLine i j (grad module));;
     assert_ (is_not_None (grad module)) none_message)%py) w =
  (outcome (snd (run_checks (param_entries i ps))),
   printed w (fst (run_checks (param_entries i ps)))).
Proof.
  revert w; induction ps as [|[j p] ps IH]; intros w.
  - cbn. now rewrite printed_nil.
  - cbn [for_each param_entries map run_checks].
    fold (param_entries i ps).
    destruct (grad p) as [g|]; cbn [is_not_None fst snd].
    + rewrite (bind_run _ _ w (printed w [GradLine i j (Some g)]) tt)
        by reflexivity.
      rewrite IH, printed_printed. reflexivity.
    + rewrite (bind_raise _ _ w (printed w [GradLine i j None])
                 (AssertionError none_message)) by reflexivity.
      reflexivity.
Qed.

Lemma run_checks_app (a b : list (Line * bool)) :
  run_checks (a ++ b) =
  if snd (run_checks a)
  then (fst (run_checks a) ++ fst (run_checks b), snd (run_checks b))
  else (fst (run_checks a), false).
Proof.
  induction a as [|[l ok] a IH]; cbn [app run_checks].
  - cbn. now destruct (run_checks b).
  - destruct ok; [|reflexivity]. rewrite IH. cbn [fst snd].
    destruct (snd (run_checks a)); reflexivity.
Qed.

Lemma outer_loop_run (ls : list (Z * Sequential)) (w : World) :
  for_each ls (fun '(i, layer) =>
    for_each (enumerate (Sequential_parameters layer)) (fun '(j, module) =>
      (print (GradLine i j (grad module));;
       assert_ (is_not_None (grad module)) none_message)%py)) w =
  (outcome (snd (run_checks (layer_entries ls))),
   printed w (fst (run_checks (layer_entries ls)))).
Proof.
  revert w; induction ls as [|[i layer] ls IH]; intros w.
  - cbn. now rewrite printed_nil.
  - cbn [for_each layer_entries flat_map]. unfold bind at 1.
    rewrite inner_loop_run, run_checks_app.
    fold (layer_entries ls).
    destruct (snd (run_checks (param_entries i _))); cbn [outcome fst snd].
    + rewrite IH, printed_printed. reflexivity.
    + reflexivity.
Qed.

Lemma display_gradients_run (w : World) :
  display_gradients w =
  (outcome (snd (run_checks (grad_entries (self w)))),
   printed w (Text "printing gradients of each layer..."
              :: fst (run_checks (grad_entries (self w))))).
Proof.
  unfold display_gradients.
  rewrite (bind_run _ _ w
             (printed w [Text "printing gradients of each layer..."]) tt)
    by reflexivity.
  rewrite (bind_run get_self _
             (printed w [Text "printing gradients of each layer..."]) _ _ eq_refl).
  change (self (printed w [Text "printing gradients of each layer..."]))
    with (self w).
  pose proof (outer_loop_run (enumerate (layers (self w)))
                (printed w [Text "printing gradients of each layer..."])) as H.
  unfold none_message in H. rewrite H. rewrite printed_printed. reflexivity.
Qed.

Lemma run_checks_ok (es : list (Line * bool)) :
  snd (run_checks es) = forallb (fun b => b) (map snd es).
Proof.
  induction es as [|[l ok] es IH]; [reflexivity|].
  cbn [run_checks map forallb snd]. destruct ok; [exact IH | reflexivity].
Qed.

Lemma run_checks_all (es : list (Line * bool)) :
  forallb (fun b => b) (map snd es) = true -> fst (run_checks es) = map fst es.
Proof.
  induction es as [|[l ok] es IH]; [reflexivity|].
  cbn [run_checks map forallb snd fst]. intros H.
  apply andb_true_iff in H as [-> H]. cbn [fst]. now rewrite IH.
Qed.

Lemma enumerate_from_snd {A} (i : Z) (l : list A) :
  map snd (enumerate_from i l) = l.
Proof.
  revert i; induction l as [|a l IH]; intros i; [reflexivity|].
  cbn. now rewrite IH.
Qed.

Lemma param_entries_grads (i : Z) (ps : list (Z * Param)) :
  map (fun e => (line_grad (fst e), snd e)) (param_entries i ps) =
  map (fun p => (Some (grad p), is_not_None (grad p))) (map snd ps).
Proof.
  induction ps as [|[j p] ps IH]; [reflexivity|].
  cbn [param_entries map fst snd line_grad]. f_equal. exact IH.
Qed.

Lemma layer_entries_grads (ls : list (Z * Sequential)) :
  map (fun e => (line_grad (fst e), snd e)) (layer_entries ls) =
  map (fun p => (Some (grad p), is_not_None (grad p)))
      (flat_map Sequential_parameters (map snd ls)).
Proof.
  induction ls as [|[i layer] ls IH]; [reflexivity|].
  cbn [layer_entries flat_map map snd]. rewrite !map_app. f_equal.
  - rewrite param_entries_grads. unfold enumerate.
    now rewrite enumerate_from_snd.
  - exact IH.
Qed.

Lemma grad_entries_grads (d : Discriminator) :
  map (fun e => (line_grad (fst e), snd e)) (grad_entries d) =
  map (fun p => (Some (grad p), is_not_None (grad p))) (all_parameters d).
Proof.
  unfold grad_entries, all_parameters, enumerate.
  rewrite layer_entries_grads. now rewrite enumerate_from_snd.
Qed.

Lemma grad_entries_present (d : Discriminator) :
  forallb (fun b => b) (map snd (grad_entries d)) = gradients_present d.
Proof.
  pose proof (f_equal (map snd) (grad_entries_grads d)) as H.
  rewrite !map_map in H. cbn [snd] in H.
  rewrite <- (map_map snd (fun b => b)) in H. rewrite map_id in H.
  rewrite H. unfold gradients_present. clear H.
  induction (all_parameters d) as [|p ps IH]; [reflexivity|].
  cbn. now rewrite IH.
Qed.

Lemma grad_entries_lines (d : Discriminator) :
  map line_grad (map fst (grad_entries d)) =
  map (fun p => Some (grad p)) (all_parameters d).
Proof.
  pose proof (f_equal (map fst) (grad_entries_grads d)) as H.
  rewrite !map_map in H. cbn [fst] in H. rewrite map_map. exact H.
Qed.

(** *** After [loss.backward()] *)

Lemma parameters_backward loss dl (m : NNModule) :
  parameters (NNModule_backward loss dl m) =
  map (Param_backward loss dl) (parameters m).
Proof. destruct m; reflexivity. Qed.

Lemma Sequential_parameters_backward loss dl (ms : Sequential) :
  Sequential_parameters (map (NNModule_backward loss dl) ms) =
  map (Param_backward loss dl) (Sequential_parameters ms).
Proof.
  unfold Sequential_parameters. induction ms as [|m ms IH]; [reflexivity|].
  cbn [map flat_map]. now rewrite map_app, parameters_backward, IH.
Qed.

Lemma backward_run loss dl w :
  shape loss = [] ->
  exists w2,
    backward loss dl w = (inr tt, w2) /\
    all_parameters (self w2) = map (Param_backward loss dl) (all_parameters (self w)).
Proof.
  intros Hs. unfold backward. rewrite Hs. eexists. split; [reflexivity|].
  unfold all_parameters, layers. cbn [self style_classes layer1 layer2 layer3
    layer4 layer5 probabilities styles flat_map].
  rewrite !Sequential_parameters_backward, !map_app. reflexivity.
Qed.

Lemma parameters_names (m : NNModule) :
  map name (parameters m) = arch_names (arch_of m).
Proof. destruct m; reflexivity. Qed.

Lemma Sequential_parameters_names (ms : Sequential) :
  map name (Sequential_parameters ms) = flat_map arch_names (map arch_of ms).
Proof.
  unfold Sequential_parameters. induction ms as [|m ms IH]; [reflexivity|].
  cbn [map flat_map]. now rewrite map_app, parameters_names, IH.
Qed.

Lemma built_parameter_names (d : Discriminator) :
  built d ->
  map name (all_parameters d) =
  stage_parameters
  ++ ["probabilities.0.weight"; "probabilities.0.bias"]
  ++ ["styles.0.weight"; "styles.0.bias"].
Proof.
  intros B. destruct (built_layers d B) as (A1 & A2 & A3 & A4 & A5 & A6 & A7).
  unfold all_parameters, layers. cbn [flat_map].
  rewrite !map_app, !Sequential_parameters_names, A1, A2, A3, A4, A5, A6, A7.
  reflexivity.
Qed.

Lemma in_graph_In (nm : string) (t : Tensor) :
  In nm (graph t) -> in_graph nm t = true.
Proof.
  intros H. unfold in_graph. apply existsb_exists.
  exists nm. split; [exact H | apply String.eqb_refl].
Qed.

Lemma backward_fills (loss : Tensor) dl (ps : list Param) :
  (forall p, In p ps -> In (name p) (graph loss)) ->
  forallb (fun p => is_not_None (grad p)) (map (Param_backward loss dl) ps) = true.
Proof.
  intros H. apply forallb_forall. intros q Hq.
  apply in_map_iff in Hq as (p & <- & Hp).
  unfold Param_backward. now rewrite (in_graph_In _ _ (H p Hp)).
Qed.

Lemma gradients_after_backward w x N dl :
  built (self w) -> shape x = [N; 3; 256; 256] ->
  exists p s w1 loss w2,
    forward x w = (inr (p, s), w1) /\
    Tensor_add (Tensor_sum p) (Tensor_sum s) = inr loss /\
    backward loss dl w1 = (inr tt, w2) /\
    gradients_present (self w2) = true.
Proof.
  intros B Hx.
  destruct (forward_run w x N B Hx)
    as (x5 & f & zp & zs & w5 & wp & w1 & _ & _ & _ & _ & _ & _ & R & _ & _ &
        B1 & _ & _ & Gp & Gs).
  set (p := Sigmoid_forward zp) in *.
  set (s := {| shape := [N; style_classes (self w)];
               item := Softmax_item 0 zs; graph := graph zs |}) in *.
  set (loss := {| shape := [];
                  item := fun idx =>
                    (item (Tensor_sum p) idx + item (Tensor_sum s) idx)%R;
                  graph := graph (Tensor_sum p) ++ graph (Tensor_sum s) |}).
  destruct (backward_run loss dl w1 eq_refl) as (w2 & Rb & Hp).
  exists p, s, w1, loss, w2.
  split; [exact R|]. split; [reflexivity|]. split; [exact Rb|].
  unfold gradients_present. rewrite Hp. apply backward_fills.
  intros q Hq. apply (in_map name) in Hq.
  rewrite (built_parameter_names _ B1) in Hq.
  subst loss p s. cbn [graph Tensor_sum Sigmoid_forward]. rewrite Gp, Gs.
  rewrite !in_app_iff in *. tauto.
Qed.

(** C7: [display_gradients] walks the parameters of layer1 .. layer5, the
    probabilities head and the styles head in that order, printing the
    gradient of each and then checking it; it raises the assertion exactly
    when some gradient is None (having printed the lines up to that one),
    and returns after printing every line otherwise; it leaves [self] as it
    was.  After a forward pass and a backward pass through the sum of both
    outputs, every gradient is there and [display_gradients] returns. *)
Theorem display_gradients_checks_every_gradient w :
  fst (display_gradients w) =
    (if gradients_present (self w) then inr tt
     else inl (AssertionError "This gradient in this module is None!")) /\
  stdout (snd (display_gradients w)) =
    stdout w ++ Text "printing gradients of each layer..."
             :: fst (run_checks (grad_entries (self w))) /\
  (gradients_present (self w) = true ->
   fst (run_checks (grad_entries (self w))) = map fst (grad_entries (self w))) /\
  map line_grad (map fst (grad_entries (self w))) =
    map (fun p => Some (grad p)) (all_parameters (self w)) /\
  self (snd (display_gradients w)) = self w /\
  called (snd (display_gradients w)) = called w /\
  forall x N dl,
    built (self w) -> shape x = [N; 3; 256; 256] ->
    exists p s w1 loss w2,
      forward x w = (inr (p, s), w1) /\
      Tensor_add (Tensor_sum p) (Tensor_sum s) = inr loss /\
      backward loss dl w1 = (inr tt, w2) /\
      display_gradients w2 =
        (inr tt,
         printed w2 (Text "printing gradients of each layer..."
                     :: map fst (grad_entries (self w2)))).
Proof.
  rewrite (display_gradients_run w). cbn [fst snd printed self stdout called].
  rewrite run_checks_ok, grad_entries_present.
  split; [reflexivity|]. split; [reflexivity|].
  split.
  { intros H. apply run_checks_all. now rewrite grad_entries_present. }
  split; [apply grad_entries_lines|].
  split; [reflexivity|]. split; [reflexivity|].
  intros x N dl B Hx.
  destruct (gradients_after_backward w x N dl B Hx)
    as (p & s & w1 & loss & w2 & R & L & Rb & G).
  exists p, s, w1, loss, w2. repeat (split; [assumption|]).
  rewrite (display_gradients_run w2), run_checks_ok, grad_entries_present, G.
  rewrite run_checks_all by (now rewrite grad_entries_present).
  reflexivity.
Qed.

Lemma display_gradients_checks_every_gradient_witness :
  fst (display_gradients (example_world 3)) =
    inl (AssertionError "This gradient in this module is None!") /\
  exists p s w1 loss w2,
    forward (example_image 2) (example_world 3) = (inr (p, s), w1) /\
    Tensor_add (Tensor_sum p) (Tensor_sum s) = inr loss /\
    backward loss zero_init w1 = (inr tt, w2) /\
    display_gradients w2 =
      (inr tt,
       printed w2 (Text "printing gradients of each layer..."
                   :: map fst (grad_entries (self w2)))).
Proof.
  destruct (display_gradients_checks_every_gradient (example_world 3))
    as (H1 & _ & _ & _ & _ & _ & H7).
  split.
  - exact H1.
  - apply (H7 (example_image 2) 2 zero_init); reflexivity.
Defined.

(** C5 as stated fails at [style_classes = 0].  Construction succeeds, and
    nothing in the class treats the result as misconfigured: [forward]
    passes every one of its assertions and returns a style output of shape
    (N, 0), [backward] through both outputs runs, and [display_gradients]
    then returns without raising. *)
Lemma init_accepts_zero_style_classes :
  exists d,
    __init__ example_limit (1 / 5) 0 zero_init = inr d /\ style_classes d = 0 /\
    exists p s w1 loss w2,
      forward (example_image 2) {| self := d; stdout := []; called := [] |}
        = (inr (p, s), w1) /\
      shape s = [2; 0] /\
      Tensor_add (Tensor_sum p) (Tensor_sum s) = inr loss /\
      backward loss zero_init w1 = (inr tt, w2) /\
      fst (display_gradients w2) = inr tt.
Proof.
  destruct (init_ok example_limit (1 / 5) 0 zero_init) as (d & R & S & B);
    try (unfold example_limit, int64_bound; lia).
  exists d. split; [exact R|]. split; [exact S|].
  set (w := {| self := d; stdout := []; called := [] |}).
  destruct (forward_run w (example_image 2) 2 B eq_refl)
    as (x5 & f & zp & zs & w5 & wp & w' & _ & _ & _ & _ & _ & _ & Rf & _).
  destruct (gradients_after_backward w (example_image 2) 2 zero_init B eq_refl)
    as (p & s & w1 & loss & w2 & Rf' & L & Rb & G).
  rewrite Rf in Rf'. injection Rf' as <- <- <-.
  do 5 eexists. split; [exact Rf|]. split; [cbn [shape self w]; now rewrite S|].
  split; [exact L|]. split; [exact Rb|].
  rewrite (display_gradients_run w2), run_checks_ok, grad_entries_present, G.
  reflexivity.
Qed.

(** * Further properties of the code *)

(** ** The batch counters after a forward pass *)

Lemma NNModule_forward_counters m x y m' :
  NNModule_forward m x = (inr y, m') ->
  batch_counters [m'] = bumped_counters [m].
Proof.
  destruct m as [c|b|s|k| |l| |d]; cbn [NNModule_forward];
    try (intros H; injection H as _ <-; reflexivity).
  unfold BatchNorm2d_forward.
  destruct (shape x) as [|N [|C [|H [|W [|? ?]]]]]; try discriminate.
  destruct (training b) eqn:T.
  - destruct (N * H * W =? 1); [discriminate|].
    destruct (negb (C =? num_features b)); [discriminate|].
    intros E. injection E as _ <-. cbn. now rewrite T.
  - destruct (negb (C =? num_features b)); [discriminate|].
    intros E. injection E as _ <-. cbn. rewrite T. now rewrite Z.add_0_r.
Qed.

Lemma Sequential_forward_counters ms x y ms' cs :
  Sequential_forward ms x = (inr y, ms', cs) ->
  batch_counters ms' = bumped_counters ms.
Proof.
  revert x ms' cs; induction ms as [|m ms IH]; intros x ms' cs.
  - cbn. intros H. injection H as _ <- _. reflexivity.
  - cbn [Sequential_forward].
    destruct (NNModule_forward m x) as [[e|y1] m1] eqn:Hm; [discriminate|].
    destruct (Sequential_forward ms y1) as [[r ms1] cs1] eqn:Hs.
    intros H. injection H as -> <- _.
    apply NNModule_forward_counters in Hm. apply IH in Hs.
    unfold batch_counters, bumped_counters in *.
    cbn [flat_map] in *. rewrite !app_nil_r in Hm.
    now rewrite Hm, Hs.
Qed.

Lemma call_counters attr store x w y w1 :
  call attr store x w = (inr y, w1) ->
  exists ms',
    self w1 = store ms' (self w) /\
    batch_counters ms' = bumped_counters (attr (self w)).
Proof.
  unfold call.
  destruct (Sequential_forward (attr (self w)) x) as [[r ms'] cs] eqn:Hs.
  intros H. injection H as -> <-.
  exists ms'. split; [reflexivity|].
  now apply Sequential_forward_counters in Hs.
Qed.

(** X1: a forward pass that succeeds leaves the batch counter of every
    batch-normalisation module one higher if the module is in training mode,
    and as it was otherwise. *)
Theorem forward_bumps_batch_counters w x N :
  built (self w) -> shape x = [N; 3; 256; 256] ->
  exists r w',
    forward x w = (inr r, w') /\
    all_batch_counters (self w') = all_bumped_counters (self w).
Proof.
  intros B Hx.
  destruct (stages_run w x N B Hx)
    as (x1 & x2 & x3 & x4 & x5 & w1 & w2 & w3 & w4 & w5 &
        [R1 _] & [R2 _] & [R3 _] & [R4 _] & [R5 S5] & R & B5 & _).
  destruct (pooled_run w5 x5 N S5) as (f & wp & Rp & Ep & _ & _ & Sp & _).
  rewrite <- Ep in B5.
  destruct (heads_run wp f N B5 Sp) as (zp & zs & w6 & w7 & R6 & R7 & Rh & _).
  do 2 eexists. split.
  { unfold forward. step_call R. step_call Rp. exact Rh. }
  apply call_counters in R1 as (m1 & E1 & C1).
  apply call_counters in R2 as (m2 & E2 & C2).
  apply call_counters in R3 as (m3 & E3 & C3).
  apply call_counters in R4 as (m4 & E4 & C4).
  apply call_counters in R5 as (m5 & E5 & C5).
  apply call_counters in R6 as (m6 & E6 & C6).
  apply call_counters in R7 as (m7 & E7 & C7).
  rewrite E6, Ep, E5, E4, E3, E2, E1 in C7.
  rewrite Ep, E5, E4, E3, E2, E1 in C6.
  rewrite E4, E3, E2, E1 in C5. rewrite E3, E2, E1 in C4.
  rewrite E2, E1 in C3. rewrite E1 in C2.
  rewrite E7, E6, Ep, E5, E4, E3, E2, E1.
  unfold all_batch_counters, all_bumped_counters, layers.
  cbn [flat_map set_layer1 set_layer2 set_layer3 set_layer4 set_layer5
       set_probabilities set_styles layer1 layer2 layer3 layer4 layer5
       probabilities styles] in *.
  now rewrite C1, C2, C3, C4, C5, C6, C7.
Qed.

Lemma forward_bumps_batch_counters_witness :
  exists r w',
    forward (example_image 2) (example_world 3) = (inr r, w') /\
    all_batch_counters (self w') = [1; 1; 1; 1].
Proof.
  apply (forward_bumps_batch_counters (example_world 3) (example_image 2) 2);
    reflexivity.
Defined.

(** ** A freshly constructed discriminator *)

(** X2: on a discriminator that was just constructed (no backward pass
    yet) [display_gradients] prints its heading and the line of the first
    parameter, whose gradient is None, and raises the assertion there. *)
Theorem display_gradients_fails_on_fresh limit slope k init d w :
  __init__ limit slope k init = inr d -> self w = d ->
  display_gradients w =
  (inl (AssertionError "This gradient in this module is None!"),
   printed w [Text "printing gradients of each layer..."; GradLine 0 0 None]).
Proof.
  intros H Hw. init_steps H.
  rewrite (display_gradients_run w), Hw, <- H. reflexivity.
Qed.

Lemma display_gradients_fails_on_fresh_witness :
  display_gradients (example_world 3) =
  (inl (AssertionError "This gradient in this module is None!"),
   printed (example_world 3)
     [Text "printing gradients of each layer..."; GradLine 0 0 None]).
Proof.
  apply (display_gradients_fails_on_fresh example_limit (1 / 5) 3 zero_init
           (example_D 3));
    reflexivity.
Defined.

(** X3: a discriminator constructed with [k] style classes holds
    5119681 + 513 k scalar parameters (weights and biases of the five
    convolutions, affine parameters of the four batch normalisations, and
    the two linear heads). *)
Theorem fresh_parameter_count limit slope k init d :
  __init__ limit slope k init = inr d ->
  parameter_count d = 5119681 + 513 * k.
Proof.
  intros H. init_steps H. rewrite <- H.
  unfold parameter_count, all_parameters, layers.
  cbn [flat_map Sequential_parameters parameters app map weight bias bn_weight
       bn_bias lin_weight lin_bias data shape layer1 layer2 layer3 layer4
       layer5 probabilities styles fold_right numel fst snd].
  lia.
Qed.

Lemma fresh_parameter_count_witness :
  parameter_count (example_D 3) = 5119681 + 513 * 3.
Proof.
  apply (fresh_parameter_count example_limit (1 / 5) 3 zero_init (example_D 3)).
  reflexivity.
Defined.

(** ** The lines [display_gradients] prints *)

Lemma run_checks_until (es : list (Line * bool)) :
  run_checks es = until_first_false es.
Proof.
  induction es as [|[l ok] es IH]; [reflexivity|].
  cbn [run_checks until_first_false]. now rewrite IH.
Qed.

Lemma until_first_false_map {A B} (f : A -> B) (l : list (A * bool)) :
  map f (fst (until_first_false l)) =
    fst (until_first_false (map (fun e => (f (fst e), snd e)) l)) /\
  snd (until_first_false l) =
    snd (until_first_false (map (fun e => (f (fst e), snd e)) l)).
Proof.
  induction l as [|[a ok] l [IH1 IH2]]; [split; reflexivity|].
  cbn [until_first_false map fst snd]. destruct ok; cbn [fst snd map].
  - now rewrite IH1, IH2.
  - split; reflexivity.
Qed.

Lemma map_pair_combine {A B C} (f : A -> B) (g : A -> C) (l : list A) :
  map (fun a => (f a, g a)) l = combine (map f l) (map g l).
Proof. induction l as [|a l IH]; [reflexivity|]. cbn. now rewrite IH. Qed.

Lemma param_entries_keys (i j : Z) (ps : list Param) :
  map (fun e => line_key (fst e)) (param_entries i (enumerate_from j ps)) =
  map (fun n => Some (i, j + Z.of_nat n)) (seq 0 (List.length ps)).
Proof.
  revert j; induction ps as [|p ps IH]; intros j; [reflexivity|].
  cbn [enumerate_from param_entries map fst line_key List.length seq].
  fold (param_entries i (enumerate_from (j + 1) ps)).
  rewrite IH, <- seq_shift, map_map. f_equal.
  - now rewrite Z.add_0_r.
  - apply map_ext. intros n. do 2 f_equal. lia.
Qed.

Lemma Sequential_parameters_length (ms : Sequential) :
  List.length (Sequential_parameters ms) =
  List.length (flat_map arch_names (map arch_of ms)).
Proof. now rewrite <- Sequential_parameters_names, length_map. Qed.

Lemma built_grad_keys (d : Discriminator) :
  built d ->
  map (fun e => line_key (fst e)) (grad_entries d) = map Some parameter_keys.
Proof.
  intros B. destruct (built_layers d B) as (A1 & A2 & A3 & A4 & A5 & A6 & A7).
  unfold grad_entries, layers, enumerate.
  cbn [enumerate_from layer_entries flat_map]. unfold enumerate.
  rewrite !map_app, !param_entries_keys, !Sequential_parameters_length,
    A1, A2, A3, A4, A5, A6, A7.
  reflexivity.
Qed.

Lemma grad_entries_flags (d : Discriminator) :
  map snd (grad_entries d) = map (fun p => is_not_None (grad p)) (all_parameters d).
Proof.
  pose proof (f_equal (map snd) (grad_entries_grads d)) as H.
  now rewrite !map_map in H.
Qed.

(** The keys of the lines that are printed are found from the keys and the
    flags of the parameters. *)
Lemma printed_keys (d : Discriminator) :
  map line_key (fst (run_checks (grad_entries d))) =
    fst (until_first_false
           (combine (map (fun e => line_key (fst e)) (grad_entries d))
                    (map (fun p => is_not_None (grad p)) (all_parameters d)))) /\
  snd (run_checks (grad_entries d)) = gradients_present d.
Proof.
  rewrite run_checks_until.
  destruct (until_first_false_map line_key (grad_entries d)) as [H1 _].
  rewrite H1, (map_pair_combine (fun e => line_key (fst e)) snd),
    grad_entries_flags.
  split; [reflexivity|].
  now rewrite <- run_checks_until, run_checks_ok, grad_entries_present.
Qed.

(** X4: with every gradient there, [display_gradients] on a built
    discriminator returns after printing its heading and 22 lines, one per
    parameter: layers 0 to 6 in order, with modules 0-1 for layer 0 and for
    the two heads and modules 0-3 for layers 1 to 4, each with the gradient
    of that parameter. *)
Theorem display_gradients_prints_every_parameter w :
  built (self w) -> gradients_present (self w) = true ->
  exists lines,
    display_gradients w =
      (inr tt, printed w (Text "printing gradients of each layer..." :: lines)) /\
    map line_key lines = map Some parameter_keys /\
    map line_grad lines = map (fun p => Some (grad p)) (all_parameters (self w)).
Proof.
  intros B G. exists (map fst (grad_entries (self w))).
  rewrite (display_gradients_run w), run_checks_ok, grad_entries_present, G.
  rewrite run_checks_all by (now rewrite grad_entries_present).
  split; [reflexivity|]. split.
  - rewrite map_map. now apply built_grad_keys.
  - apply grad_entries_lines.
Qed.

Lemma display_gradients_prints_every_parameter_witness :
  exists lines,
    display_gradients example_graded =
      (inr tt,
       printed example_graded (Text "printing gradients of each layer..." :: lines)) /\
    map line_key lines = map Some parameter_keys /\
    map line_grad lines =
      map (fun p => Some (grad p)) (all_parameters (self example_graded)).
Proof.
  apply (display_gradients_prints_every_parameter example_graded).
  - reflexivity.
  - vm_compute. reflexivity.
Defined.

(** ** Where [display_gradients] stops *)

Lemma grad_entries_wf (d : Discriminator) :
  Forall (fun e => exists i j g, e = (GradLine i j g, is_not_None g))
         (grad_entries d).
Proof.
  unfold grad_entries. generalize (enumerate (layers d)) as ls.
  induction ls as [|[i layer] ls IH]; [constructor|].
  cbn [layer_entries flat_map]. apply Forall_app. split; [|exact IH].
  generalize (enumerate (Sequential_parameters layer)) as ps.
  induction ps as [|[j p] ps IHp]; [constructor|].
  constructor; [|exact IHp]. now exists i, j, (grad p).
Qed.

Lemma run_checks_stops (es : list (Line * bool)) :
  Forall (fun e => exists i j g, e = (GradLine i j g, is_not_None g)) es ->
  snd (run_checks es) = false ->
  exists pre i j rest,
    fst (run_checks es) = pre ++ [GradLine i j None] /\
    map fst es = pre ++ GradLine i j None :: rest /\
    Forall (fun l => exists i' j' g, l = GradLine i' j' (Some g)) pre.
Proof.
  induction 1 as [|e es (i & j & g & ->) _ IH]; [discriminate|].
  cbn [run_checks map fst]. destruct g as [g|]; cbn [is_not_None fst snd].
  - intros H. destruct (IH H) as (pre & i' & j' & rest & E1 & E2 & F).
    exists (GradLine i j (Some g) :: pre), i', j', rest.
    rewrite E1, E2. repeat split. constructor; [|exact F]. now exists i, j, g.
  - intros _. exists [], i, j, (map fst es). repeat split. constructor.
Qed.

(** X5: when some gradient is missing, [display_gradients] raises the
    assertion after printing its heading and the lines of the parameters up
    to the first one whose gradient is None: every line before the last
    shows a gradient, the last shows None, and nothing after it is
    printed. *)
Theorem display_gradients_stops_at_first_None w :
  gradients_present (self w) = false ->
  exists pre i j rest,
    display_gradients w =
      (inl (AssertionError "This gradient in this module is None!"),
       printed w (Text "printing gradients of each layer..."
                  :: pre ++ [GradLine i j None])) /\
    map fst (grad_entries (self w)) = pre ++ GradLine i j None :: rest /\
    Forall (fun l => exists i' j' g, l = GradLine i' j' (Some g)) pre.
Proof.
  intros G.
  destruct (run_checks_stops (grad_entries (self w)) (grad_entries_wf _))
    as (pre & i & j & rest & E1 & E2 & F).
  { now rewrite run_checks_ok, grad_entries_present. }
  exists pre, i, j, rest.
  rewrite (display_gradients_run w), run_checks_ok, grad_entries_present, G, E1.
  repeat split; assumption.
Qed.

Lemma display_gradients_stops_at_first_None_witness :
  exists pre i j rest,
    display_gradients (example_world 3) =
      (inl (AssertionError "This gradient in this module is None!"),
       printed (example_world 3)
         (Text "printing gradients of each layer..."
          :: pre ++ [GradLine i j None])) /\
    map fst (grad_entries (example_D 3)) = pre ++ GradLine i j None :: rest /\
    Forall (fun l => exists i' j' g, l = GradLine i' j' (Some g)) pre.
Proof.
  apply (display_gradients_stops_at_first_None (example_world 3)).
  reflexivity.
Defined.

(** ** A backward pass through one head only *)

Lemma arch_of_backward loss dl (m : NNModule) :
  arch_of (NNModule_backward loss dl m) = arch_of m.
Proof.
  assert (Hn : forall p, name (Param_backward loss dl p) = name p).
  { intros p. unfold Param_backward. now destruct (in_graph (name p) loss). }
  destruct m; cbn [NNModule_backward arch_of in_channels out_channels
    kernel_size stride padding weight bias num_features bn_weight bn_bias
    in_features out_features lin_weight lin_bias]; rewrite ?Hn; reflexivity.
Qed.

Lemma backward_keeps loss dl w :
  shape loss = [] -> built (self w) ->
  exists w2,
    backward loss dl w = (inr tt, w2) /\ built (self w2) /\
    all_parameters (self w2) = map (Param_backward loss dl) (all_parameters (self w)).
Proof.
  intros Hs B. destruct (backward_run loss dl w Hs) as (w2 & R & P).
  exists w2. split; [exact R|]. split; [|exact P].
  unfold backward in R. rewrite Hs in R. injection R as <-.
  unfold built in *. unfold layers in *.
  cbn [self style_classes layer1 layer2 layer3 layer4 layer5 probabilities
       styles map] in *.
  rewrite !map_map.
  rewrite !(map_ext _ arch_of (arch_of_backward loss dl)). exact B.
Qed.

Lemma flags_after_backward loss dl (ps : list Param) :
  Forall (fun p => grad p = None) ps ->
  map (fun p => is_not_None (grad p)) (map (Param_backward loss dl) ps) =
  map (fun nm => in_graph nm loss) (map name ps).
Proof.
  induction 1 as [|p ps Hp _ IH]; [reflexivity|].
  cbn [map]. rewrite IH. f_equal.
  unfold Param_backward. destruct (in_graph (name p) loss); [reflexivity|].
  now rewrite Hp.
Qed.

Lemma gradients_present_flags (d : Discriminator) :
  gradients_present d =
  snd (until_first_false
         (combine (map (fun e => line_key (fst e)) (grad_entries d))
                  (map (fun p => is_not_None (grad p)) (all_parameters d)))).
Proof.
  destruct (printed_keys d) as [_ <-].
  rewrite run_checks_until.
  destruct (until_first_false_map line_key (grad_entries d)) as [_ ->].
  now rewrite (map_pair_combine (fun e => line_key (fst e)) snd),
    grad_entries_flags.
Qed.

Lemma backward_then_display w loss dl :
  built (self w) -> shape loss = [] ->
  Forall (fun p => grad p = None) (all_parameters (self w)) ->
  snd (until_first_false
         (combine (map Some parameter_keys)
            (map (fun nm => in_graph nm loss)
               (stage_parameters
                ++ ["probabilities.0.weight"; "probabilities.0.bias"]
                ++ ["styles.0.weight"; "styles.0.bias"])))) = false ->
  exists w2 lines,
    backward loss dl w = (inr tt, w2) /\
    display_gradients w2 =
      (inl (AssertionError "This gradient in this module is None!"),
       printed w2 (Text "printing gradients of each layer..." :: lines)) /\
    map line_key lines =
      fst (until_first_false
             (combine (map Some parameter_keys)
                (map (fun nm => in_graph nm loss)
                   (stage_parameters
                    ++ ["probabilities.0.weight"; "probabilities.0.bias"]
                    ++ ["styles.0.weight"; "styles.0.bias"])))).
Proof.
  intros B Hs F Hfalse.
  destruct (backward_keeps loss dl w Hs B) as (w2 & R & B2 & P).
  assert (Hflags :
    map (fun p => is_not_None (grad p)) (all_parameters (self w2)) =
    map (fun nm => in_graph nm loss)
      (stage_parameters
       ++ ["probabilities.0.weight"; "probabilities.0.bias"]
       ++ ["styles.0.weight"; "styles.0.bias"])).
  { rewrite P, (flags_after_backward loss dl _ F).
    now rewrite (built_parameter_names _ B). }
  exists w2, (fst (run_checks (grad_entries (self w2)))).
  split; [exact R|].
  destruct (printed_keys (self w2)) as [K G].
  rewrite (gradients_present_flags (self w2)) in G.
  rewrite (built_grad_keys _ B2), Hflags in K, G.
  split; [|exact K].
  rewrite (display_gradients_run w2), G, Hfalse. reflexivity.
Qed.

(** X6: the two heads share the five stages and nothing else.  Starting
    with no gradients, a backward pass through the probabilities alone
    leaves the styles head without gradients, so [display_gradients] prints
    the lines of layers 0 to 5 and raises at layer 6, module 0; a backward
    pass through the style output alone leaves the probabilities head
    without gradients, and [display_gradients] raises at layer 5, module 0. *)
Theorem backward_through_one_head w x N dl :
  built (self w) -> shape x = [N; 3; 256; 256] -> graph x = [] ->
  Forall (fun p => grad p = None) (all_parameters (self w)) ->
  exists p s w1,
    forward x w = (inr (p, s), w1) /\
    (exists w2 lines,
       backward (Tensor_sum p) dl w1 = (inr tt, w2) /\
       display_gradients w2 =
         (inl (AssertionError "This gradient in this module is None!"),
          printed w2 (Text "printing gradients of each layer..." :: lines)) /\
       map line_key lines = map Some (firstn 21 parameter_keys)) /\
    (exists w2 lines,
       backward (Tensor_sum s) dl w1 = (inr tt, w2) /\
       display_gradients w2 =
         (inl (AssertionError "This gradient in this module is None!"),
          printed w2 (Text "printing gradients of each layer..." :: lines)) /\
       map line_key lines = map Some (firstn 19 parameter_keys)).
Proof.
  intros B Hx Hg F.
  destruct (forward_run w x N B Hx)
    as (x5 & f & zp & zs & w5 & wp & w1 & _ & _ & _ & _ & _ & _ & R & _ & _ &
        B1 & _ & _ & Gp & Gs).
  rewrite Hg in Gp, Gs. cbn [app] in Gp, Gs.
  assert (F1 : Forall (fun p => grad p = None) (all_parameters (self w1))).
  { destruct (frames_forward x w) as [E _]. rewrite R in E. cbn [snd] in E.
    now rewrite (evolved_parameters _ _ E). }
  do 3 eexists. split; [exact R|]. split.
  - destruct (backward_then_display w1 (Tensor_sum (Sigmoid_forward zp)) dl B1
                eq_refl F1) as (w2 & lines & Rb & D & K).
    { unfold in_graph. cbn [Tensor_sum Sigmoid_forward graph]. rewrite Gp.
      vm_compute. reflexivity. }
    exists w2, lines. split; [exact Rb|]. split; [exact D|].
    rewrite K. unfold in_graph. cbn [Tensor_sum Sigmoid_forward graph].
    rewrite Gp. vm_compute. reflexivity.
  - match goal with
    | |- context [Tensor_sum ?t] =>
        destruct (backward_then_display w1 (Tensor_sum t) dl B1 eq_refl F1)
          as (w2 & lines & Rb & D & K)
    end.
    { unfold in_graph. cbn [Tensor_sum graph]. rewrite Gs.
      vm_compute. reflexivity. }
    exists w2, lines. split; [exact Rb|]. split; [exact D|].
    rewrite K. unfold in_graph. cbn [Tensor_sum graph].
    rewrite Gs. vm_compute. reflexivity.
Qed.

Lemma backward_through_one_head_witness :
  exists p s w1,
    forward (example_image 2) (example_world 3) = (inr (p, s), w1) /\
    (exists w2 lines,
       backward (Tensor_sum p) zero_init w1 = (inr tt, w2) /\
       display_gradients w2 =
         (inl (AssertionError "This gradient in this module is None!"),
          printed w2 (Text "printing gradients of each layer..." :: lines)) /\
       map line_key lines = map Some (firstn 21 parameter_keys)) /\
    (exists w2 lines,
       backward (Tensor_sum s) zero_init w1 = (inr tt, w2) /\
       display_gradients w2 =
         (inl (AssertionError "This gradient in this module is None!"),
          printed w2 (Text "printing gradients of each layer..." :: lines)) /\
       map line_key lines = map Some (firstn 19 parameter_keys)).
Proof.
  apply (backward_through_one_head (example_world 3) (example_image 2) 2).
  - reflexivity.
  - reflexivity.
  - reflexivity.
  - vm_compute. repeat constructor.
Defined.

(** ** The style output of a whole batch *)

Lemma Rsum_nat_plus (n : nat) (f g : Z -> R) :
  Rsum_nat n (fun i => (f i + g i)%R) = (Rsum_nat n f + Rsum_nat n g)%R.
Proof.
  induction n as [|n IH]; cbn [Rsum_nat]; [ring|]. rewrite IH. ring.
Qed.

Lemma Rsum_nat_zero (n : nat) : Rsum_nat n (fun _ => 0%R) = 0%R.
Proof. induction n as [|n IH]; cbn [Rsum_nat]; [reflexivity|]. rewrite IH. ring. Qed.

Lemma Rsum_nat_swap (n m : nat) (f : Z -> Z -> R) :
  Rsum_nat n (fun i => Rsum_nat m (fun j => f i j)) =
  Rsum_nat m (fun j => Rsum_nat n (fun i => f i j)).
Proof.
  induction n as [|n IH]; cbn [Rsum_nat].
  - now rewrite Rsum_nat_zero.
  - now rewrite IH, <- Rsum_nat_plus.
Qed.

Lemma Rsum_swap (n m : Z) (f : Z -> Z -> R) :
  Rsum n (fun i => Rsum m (fun j => f i j)) =
  Rsum m (fun j => Rsum n (fun i => f i j)).
Proof. unfold Rsum. apply Rsum_nat_swap. Qed.

(** X7: since the softmax runs over the batch axis, the entries of the style
    output of a whole batch add up to [style_classes], whatever the batch
    size (a softmax over the classes would give the batch size). *)
Theorem styles_total_is_style_classes w x N :
  built (self w) -> 1 <= N -> 0 <= style_classes (self w) ->
  shape x = [N; 3; 256; 256] ->
  exists p s w',
    forward x w = (inr (p, s), w') /\
    item (Tensor_sum s) [] = IZR (style_classes (self w)).
Proof.
  intros B HN Hk Hx.
  destruct (forward_run w x N B Hx)
    as (x5 & f & zp & zs & w5 & wp & w' & _ & _ & _ & _ & _ & _ & R & _ & Sz & _).
  do 3 eexists. split; [exact R|].
  cbn [Tensor_sum item shape sum_all].
  rewrite Rsum_swap.
  rewrite (Rsum_ext _ _ (fun _ => 1%R)).
  - now apply Rsum_ones.
  - intros c _. apply (softmax0_batch_sum zs N _ c Sz HN).
Qed.

Lemma styles_total_is_style_classes_witness :
  exists p s w',
    forward (example_image 2) (example_world 3) = (inr (p, s), w') /\
    item (Tensor_sum s) [] = IZR 3.
Proof.
  apply (styles_total_is_style_classes (example_world 3) (example_image 2) 2).
  - reflexivity.
  - lia.
  - vm_compute. discriminate.
  - reflexivity.
Defined.

(** ** The modules a forward pass calls *)

(** X8: a forward pass on a batch of the supported shape calls 20 leaf
    modules (the [nn.Sequential] containers that hold them aside), in this
    order: the convolution and activation of stage 1 (2 modules);
    convolution, batch normalisation and activation of stages 2 to 5
    (12 modules); the average pooling and the flattening (2); the linear
    layer and sigmoid of the probabilities head (2); the linear layer and
    softmax of the styles head (2).  It prints nothing. *)
Theorem forward_calls_in_order w x N :
  built (self w) -> shape x = [N; 3; 256; 256] ->
  exists r w',
    forward x w = (inr r, w') /\
    called w' =
      called w ++
      ["Conv2d"; "LeakyReLU";
       "Conv2d"; "BatchNorm2d"; "LeakyReLU";
       "Conv2d"; "BatchNorm2d"; "LeakyReLU";
       "Conv2d"; "BatchNorm2d"; "LeakyReLU";
       "Conv2d"; "BatchNorm2d"; "LeakyReLU";
       "AvgPool2d"; "Flatten";
       "Linear"; "Sigmoid"; "Linear"; "Softmax"] /\
    List.length (called w') = (List.length (called w) + 20)%nat /\
    stdout w' = stdout w.
Proof.
  intros B Hx.
  destruct (forward_run w x N B Hx)
    as (x5 & f & zp & zs & w5 & wp & w' & _ & _ & _ & _ & _ & _ & R & _ & _ &
        _ & O & C & _).
  do 2 eexists. split; [exact R|]. split; [exact C|]. split; [|exact O].
  rewrite C, length_app. reflexivity.
Qed.

Lemma forward_calls_in_order_witness :
  exists r w',
    forward (example_image 2) (example_world 3) = (inr r, w') /\
    called w' =
      [] ++
      ["Conv2d"; "LeakyReLU";
       "Conv2d"; "BatchNorm2d"; "LeakyReLU";
       "Conv2d"; "BatchNorm2d"; "LeakyReLU";
       "Conv2d"; "BatchNorm2d"; "LeakyReLU";
       "Conv2d"; "BatchNorm2d"; "LeakyReLU";
       "AvgPool2d"; "Flatten";
       "Linear"; "Sigmoid"; "Linear"; "Softmax"] /\
    List.length (called w') = (0 + 20)%nat /\
    stdout w' = [].
Proof.
  apply (forward_calls_in_order (example_world 3) (example_image 2) 2);
    reflexivity.
Defined.
